(** * fastapi-crudrouter: the SQLAlchemy-backed CRUD routes

    A shallow embedding of [fastapi_crudrouter/core/sqlalchemy.py].

    The route handlers of [SQLAlchemyCRUDRouter] are modelled as functions on
    an explicit ORM session.  What the handlers call but do not define (the
    JSON decoder, the ORM session and query objects, Python's calling
    convention, the web framework's mapping of exceptions to status codes) is
    modelled next to them, each with the behaviour of the library it stands
    for.

    Conventions:
    - a Python [str] is a [string] holding its UTF-8 bytes;
    - a Python [int] is a [Z];
    - [None] in an [Optional[...]] is [None];
    - a raised exception is the left injection of a sum, [inl e];
    - a Python [dict] whose iteration order matters is an association list
      with distinct keys, in insertion order; the attributes of an ORM object
      are a [gmap] from attribute name to value. *)

From Stdlib Require Import ZArith Ascii String.
From stdpp Require Import base option list gmap strings pretty.

Local Open Scope string_scope.
Local Open Scope list_scope.
Local Open Scope Z_scope.

(** ** Exceptions and results *)

Inductive exn : Type :=
| HTTPException (status_code : Z) (detail : string)
| JSONDecodeError
| TypeError (msg : string)
| AttributeError (msg : string)
| IntegrityError (args : list string)
| InterfaceError (msg : string)
| InvalidRequestError (msg : string)
| OverflowError (msg : string)
| UnicodeEncodeError (msg : string)
| NotModelled (what : string).

#[global] Instance exn_eq_dec : EqDecision exn.
Proof. solve_decision. Defined.

(** [NotModelled] is no exception of the program.  It is the outcome of a
    step whose result depends on what this model leaves out (the value of a
    float, the comparison of a class attribute that is no column): the model
    does not answer there. *)

(** A computation that may raise. *)
Definition result (A : Type) : Type := exn + A.

Definition raise {A : Type} (e : exn) : result A := inl e.
Definition ret {A : Type} (a : A) : result A := inr a.

Definition bind {A B : Type} (c : result A) (k : A -> result B) : result B :=
  match c with
  | inl e => inl e
  | inr a => k a
  end.

Notation "'let*' x ':=' c 'in' k" := (bind c (fun x => k))
  (at level 10, x pattern, c at level 100, k at level 200).

(** ** Python strings *)

Definition is_continuation_byte (c : ascii) : bool :=
  let n := N_of_ascii c in ((128 <=? n) && (n <? 192))%N.

(** The characters of a string: a UTF-8 lead byte with the continuation
    bytes that follow it. *)
Fixpoint take_continuation (s : string) : string * string :=
  match s with
  | String c r =>
      if is_continuation_byte c
      then let '(cs, r') := take_continuation r in (String c cs, r')
      else (EmptyString, s)
  | EmptyString => (EmptyString, EmptyString)
  end.

Fixpoint str_chars_aux (n : nat) (s : string) : list string :=
  match n, s with
  | S n, String c r =>
      let '(cs, r') := take_continuation r in
      String c cs :: str_chars_aux n r'
  | _, _ => []
  end.

Definition str_chars (s : string) : list string :=
  str_chars_aux (String.length s) s.

(** [sep.join(xs)] *)
Fixpoint str_join (sep : string) (xs : list string) : string :=
  match xs with
  | [] => ""
  | [x] => x
  | x :: xs => x +:+ sep +:+ str_join sep xs
  end.

(** [c.lower()] on an ASCII letter; other bytes are left as they are. *)
Definition lower_ascii (c : ascii) : ascii :=
  let n := N_of_ascii c in
  if ((65 <=? n) && (n <=? 90))%N then ascii_of_N (n + 32) else c.

(** [s.lower()] *)
Fixpoint str_lower (s : string) : string :=
  match s with
  | EmptyString => EmptyString
  | String c r => String (lower_ascii c) (str_lower r)
  end.

(** Truthiness of an [Optional[str]]: [None] and the empty string are
    falsy. *)
Definition str_truthy (s : option string) : bool :=
  match s with
  | None | Some EmptyString => false
  | Some _ => true
  end.

(** ** JSON values, as [json.loads] builds them *)

#[local] Set Warnings "-register-all".

Inductive json : Type :=
| JNull
| JBool (b : bool)
| JInt (z : Z)
| JFloat (literal : string)
| JStr (s : string)
| JArr (items : list json)
| JObj (pairs : list (string * json)).

(** [dict(pairs)]: a later pair for a key already seen replaces the value and
    keeps the position of the first. *)
Fixpoint dict_set {V : Type} (k : string) (v : V) (d : list (string * V))
  : list (string * V) :=
  match d with
  | [] => [(k, v)]
  | (k', v') :: d' =>
      if String.eqb k k' then (k, v) :: d' else (k', v') :: dict_set k v d'
  end.

Definition py_dict {V : Type} (pairs : list (string * V)) : list (string * V) :=
  fold_left (fun d kv => dict_set (fst kv) (snd kv) d) pairs [].


(** ** [json.loads]

    The decoder of the standard library: [JSONDecoder.decode] with the
    default (strict) settings, over the grammar of [json.scanner] and
    [json.decoder]. *)

Definition is_ws (c : ascii) : bool :=
  Ascii.eqb c " " || Ascii.eqb c "009" || Ascii.eqb c "010" || Ascii.eqb c "013".

Fixpoint skip_ws (s : string) : string :=
  match s with
  | String c r => if is_ws c then skip_ws r else s
  | EmptyString => EmptyString
  end.

Definition is_digit (c : ascii) : bool :=
  let n := N_of_ascii c in ((48 <=? n) && (n <=? 57))%N.

Definition digit_val (c : ascii) : Z := Z.of_N (N_of_ascii c) - 48.

Definition hex_val (c : ascii) : option Z :=
  let n := Z.of_N (N_of_ascii c) in
  if (48 <=? n) && (n <=? 57) then Some (n - 48)
  else if (97 <=? n) && (n <=? 102) then Some (n - 87)
  else if (65 <=? n) && (n <=? 70) then Some (n - 55)
  else None.

(** The four hex digits of a [\uXXXX] escape. *)
Definition decode_uXXXX (a b c d : ascii) : option Z :=
  match hex_val a, hex_val b, hex_val c, hex_val d with
  | Some x, Some y, Some z, Some w => Some (((x * 16 + y) * 16 + z) * 16 + w)
  | _, _, _, _ => None
  end.

Definition byte_of_Z (n : Z) : ascii := ascii_of_N (Z.to_N n).

(** [chr(n)], in UTF-8. *)
Definition chr_utf8 (n : Z) : string :=
  if n <? 128 then String (byte_of_Z n) ""
  else if n <? 2048 then
    String (byte_of_Z (192 + n / 64)) (String (byte_of_Z (128 + n mod 64)) "")
  else if n <? 65536 then
    String (byte_of_Z (224 + n / 4096))
      (String (byte_of_Z (128 + (n / 64) mod 64))
         (String (byte_of_Z (128 + n mod 64)) ""))
  else
    String (byte_of_Z (240 + n / 262144))
      (String (byte_of_Z (128 + (n / 4096) mod 64))
         (String (byte_of_Z (128 + (n / 64) mod 64))
            (String (byte_of_Z (128 + n mod 64)) ""))).

Definition backslash : ascii := "092"%char.
Definition dquote : ascii := "034"%char.

(** The escapes of [json.decoder.BACKSLASH]. *)
Definition unescape (c : ascii) : option ascii :=
  if Ascii.eqb c dquote then Some dquote
  else if Ascii.eqb c backslash then Some backslash
  else if Ascii.eqb c "/" then Some "/"%char
  else if Ascii.eqb c "b" then Some "008"%char
  else if Ascii.eqb c "f" then Some "012"%char
  else if Ascii.eqb c "n" then Some "010"%char
  else if Ascii.eqb c "r" then Some "013"%char
  else if Ascii.eqb c "t" then Some "009"%char
  else None.

Definition is_control (c : ascii) : bool := (N_of_ascii c <? 32)%N.

(** [scanstring(s, end, strict=True)], entered after the opening quote:
    the decoded string and the input after the closing quote. *)
Fixpoint scanstring (s : string) : option (string * string) :=
  match s with
  | EmptyString => None
  | String c r =>
      if Ascii.eqb c dquote then Some (EmptyString, r)
      else if Ascii.eqb c backslash then
        match r with
        | EmptyString => None
        | String e r1 =>
            if Ascii.eqb e "u" then
              match r1 with
              | String h1 (String h2 (String h3 (String h4 r2))) =>
                  match decode_uXXXX h1 h2 h3 h4 with
                  | None => None
                  | Some uni =>
                      let single :=
                        match scanstring r2 with
                        | Some (str, r') => Some (chr_utf8 uni +:+ str, r')
                        | None => None
                        end in
                      if (55296 <=? uni) && (uni <=? 56319) then
                        match r2 with
                        | String b (String u
                            (String l1 (String l2 (String l3 (String l4 r3))))) =>
                            if Ascii.eqb b backslash && Ascii.eqb u "u" then
                              match decode_uXXXX l1 l2 l3 l4 with
                              | None => None
                              | Some uni2 =>
                                  if (56320 <=? uni2) && (uni2 <=? 57343) then
                                    match scanstring r3 with
                                    | Some (str, r') =>
                                        Some (chr_utf8
                                                (65536 + ((uni - 55296) * 1024
                                                          + (uni2 - 56320)))
                                              +:+ str, r')
                                    | None => None
                                    end
                                  else single
                              end
                            else single
                        | _ => single
                        end
                      else single
                  end
              | _ => None
              end
            else
              match unescape e with
              | Some c' =>
                  match scanstring r1 with
                  | Some (str, r') => Some (String c' str, r')
                  | None => None
                  end
              | None => None
              end
        end
      else if is_control c then None
      else
        match scanstring r with
        | Some (str, r') => Some (String c str, r')
        | None => None
        end
  end.

Fixpoint scan_digits (s : string) : string * string :=
  match s with
  | String c r =>
      if is_digit c
      then let '(ds, r') := scan_digits r in (String c ds, r')
      else (EmptyString, s)
  | EmptyString => (EmptyString, EmptyString)
  end.

Fixpoint int_of_digits (acc : Z) (ds : string) : Z :=
  match ds with
  | EmptyString => acc
  | String c r => int_of_digits (acc * 10 + digit_val c) r
  end.

(** The integer part of [NUMBER_RE]: a single zero, or a digit from 1 to 9
    followed by any number of digits. *)
Definition scan_integer (s : string) : option (string * string) :=
  match s with
  | String c r =>
      if Ascii.eqb c "0" then Some ("0", r)
      else if is_digit c
           then let '(ds, r') := scan_digits r in Some (String c ds, r')
           else None
  | EmptyString => None
  end.

(** The optional fraction of [NUMBER_RE]: a dot and at least one digit. *)
Definition scan_frac (s : string) : string * string :=
  match s with
  | String p (String d r) =>
      if Ascii.eqb p "." && is_digit d
      then let '(ds, r') := scan_digits r in (String p (String d ds), r')
      else (EmptyString, s)
  | _ => (EmptyString, s)
  end.

(** The optional exponent of [NUMBER_RE]: [e] or [E], an optional sign and
    at least one digit. *)
Definition scan_exp (s : string) : string * string :=
  match s with
  | String e r =>
      if Ascii.eqb e "e" || Ascii.eqb e "E" then
        match r with
        | String g (String d r1) =>
            if (Ascii.eqb g "-" || Ascii.eqb g "+") && is_digit d then
              let '(ds, r') := scan_digits r1 in
              (String e (String g (String d ds)), r')
            else if is_digit g then
              let '(ds, r') := scan_digits (String d r1) in
              (String e (String g ds), r')
            else (EmptyString, s)
        | String d EmptyString =>
            if is_digit d then (String e (String d ""), EmptyString)
            else (EmptyString, s)
        | EmptyString => (EmptyString, s)
        end
      else (EmptyString, s)
  | EmptyString => (EmptyString, s)
  end.

(** [match_number]: an [int] when there is neither fraction nor exponent,
    a [float] (kept as its literal) otherwise. *)
Definition match_number (s : string) : option (json * string) :=
  let '(neg, s1) :=
    match s with
    | String c r => if Ascii.eqb c "-" then (true, r) else (false, s)
    | EmptyString => (false, s)
    end in
  match scan_integer s1 with
  | None => None
  | Some (int_part, r1) =>
      let '(frac, r2) := scan_frac r1 in
      let '(exp, r3) := scan_exp r2 in
      let sign := if neg then "-" else "" in
      match frac, exp with
      | EmptyString, EmptyString =>
          let n := int_of_digits 0 int_part in
          Some (JInt (if neg then - n else n), r3)
      | _, _ => Some (JFloat (sign +:+ int_part +:+ frac +:+ exp), r3)
      end
  end.

(** [s[idx:].startswith(p)], returning the rest. *)
Fixpoint strip_prefix (p s : string) : option string :=
  match p, s with
  | EmptyString, _ => Some s
  | String a p', String b s' => if Ascii.eqb a b then strip_prefix p' s' else None
  | String _ _, EmptyString => None
  end.

Inductive parsed (A : Type) : Type :=
| Parsed (a : A) (rest : string)
| Malformed
| Exhausted.
Arguments Parsed {A} a rest.
Arguments Malformed {A}.
Arguments Exhausted {A}.

(** The scalars of [scan_once]: constants, then numbers, then the float
    constants of [parse_constant]. *)
Definition scan_scalar (s : string) : parsed json :=
  match strip_prefix "null" s with
  | Some r => Parsed JNull r
  | None =>
  match strip_prefix "true" s with
  | Some r => Parsed (JBool true) r
  | None =>
  match strip_prefix "false" s with
  | Some r => Parsed (JBool false) r
  | None =>
  match match_number s with
  | Some (v, r) => Parsed v r
  | None =>
  match strip_prefix "NaN" s with
  | Some r => Parsed (JFloat "NaN") r
  | None =>
  match strip_prefix "Infinity" s with
  | Some r => Parsed (JFloat "Infinity") r
  | None =>
  match strip_prefix "-Infinity" s with
  | Some r => Parsed (JFloat "-Infinity") r
  | None => Malformed
  end end end end end end end.

(** [scan_once], [JSONObject] and [JSONArray].  The recursion of the decoder
    is on the nesting of the text; here it is on a counter that
    [json_loads] starts high enough ([scan_once_fuel] below).
    [JSONObject_loop] is entered after the opening quote of a key,
    [JSONArray_loop] at the start of an element. *)
Fixpoint scan_once (fuel : nat) (s : string) : parsed json :=
  match fuel with
  | O => Exhausted
  | S fuel =>
      match s with
      | String c r =>
          if Ascii.eqb c dquote then
            match scanstring r with
            | Some (str, r') => Parsed (JStr str) r'
            | None => Malformed
            end
          else if Ascii.eqb c "{" then
            match skip_ws r with
            | String c' r' =>
                if Ascii.eqb c' "}" then Parsed (JObj []) r'
                else if Ascii.eqb c' dquote then JSONObject_loop fuel r' []
                else Malformed
            | EmptyString => Malformed
            end
          else if Ascii.eqb c "[" then
            match skip_ws r with
            | String c' r' =>
                if Ascii.eqb c' "]" then Parsed (JArr []) r'
                else JSONArray_loop fuel (String c' r') []
            | EmptyString => Malformed
            end
          else scan_scalar s
      | EmptyString => Malformed
      end
  end
with JSONObject_loop (fuel : nat) (s : string) (pairs : list (string * json))
  : parsed json :=
  match fuel with
  | O => Exhausted
  | S fuel =>
      match scanstring s with
      | None => Malformed
      | Some (key, r) =>
          match skip_ws r with
          | String c r1 =>
              if Ascii.eqb c ":" then
                match scan_once fuel (skip_ws r1) with
                | Parsed v r2 =>
                    match skip_ws r2 with
                    | String d r3 =>
                        if Ascii.eqb d "}" then
                          Parsed (JObj (py_dict (rev ((key, v) :: pairs)))) r3
                        else if Ascii.eqb d "," then
                          match skip_ws r3 with
                          | String q r4 =>
                              if Ascii.eqb q dquote
                              then JSONObject_loop fuel r4 ((key, v) :: pairs)
                              else Malformed
                          | EmptyString => Malformed
                          end
                        else Malformed
                    | EmptyString => Malformed
                    end
                | Malformed => Malformed
                | Exhausted => Exhausted
                end
              else Malformed
          | EmptyString => Malformed
          end
      end
  end
with JSONArray_loop (fuel : nat) (s : string) (values : list json)
  : parsed json :=
  match fuel with
  | O => Exhausted
  | S fuel =>
      match scan_once fuel s with
      | Parsed v r =>
          match skip_ws r with
          | String d r1 =>
              if Ascii.eqb d "]" then Parsed (JArr (rev (v :: values))) r1
              else if Ascii.eqb d "," then
                JSONArray_loop fuel (skip_ws r1) (v :: values)
              else Malformed
          | EmptyString => Malformed
          end
      | Malformed => Malformed
      | Exhausted => Exhausted
      end
  end.

Definition loads_fuel (s : string) : nat := 2 * String.length s + 2.

(** [json.loads(s)]: leading whitespace, one value, trailing whitespace,
    end of input; [JSONDecodeError] otherwise.  (The interpreter's limits on
    nesting depth and on the length of an integer literal are left out.) *)
Definition json_loads (s : string) : result json :=
  match scan_once (loads_fuel s) (skip_ws s) with
  | Parsed v r =>
      match skip_ws r with
      | EmptyString => ret v
      | String _ _ => raise JSONDecodeError
      end
  | Malformed | Exhausted => raise JSONDecodeError
  end.

(** ** Column values and ORM objects *)

(** What a column holds and what a payload field carries: [None], a [bool],
    an [int], a [float] (kept as its literal) or a [str]. *)
Inductive value : Type :=
| VNull
| VBool (b : bool)
| VInt (z : Z)
| VFloat (literal : string)
| VStr (s : string).

#[global] Instance value_eq_dec : EqDecision value.
Proof. solve_decision. Defined.

(** An ORM object: its mapped attributes, by name. *)
Abbreviation row := (gmap string value).

(** [model.dict()]: the fields of a validated payload, in field order. *)
Abbreviation payload := (list (string * value)).

(** The kind of a column: integer or text.  The statements below that
    depend on how the engine stores or compares a value are made for values
    of the kind of their column. *)
Inductive kind : Type := KInt | KStr.

(** A column other than the primary key: its name, its kind, its
    constraints, and the default the insert gives it when the object has
    [None] there. *)
Record Column : Type := {
  col_name : string;
  col_kind : kind;
  col_unique : bool;
  col_nullable : bool;
  col_default : option value
}.

(** A declarative model: a table with a single-column primary key.
    [class_attribute k] says that [k] is, or may be, an attribute of the
    mapped class without being a column ([metadata], [__tablename__],
    [__init__], a method of the class). *)
Record Model : Type := {
  tablename : string;
  pk_column : string;
  pk_kind : kind;
  columns : list Column;
  class_attribute : string -> bool
}.

Definition column_names (m : Model) : list string :=
  pk_column m :: map col_name (columns m).

(** [k] names a column of the model. *)
Definition has_column (m : Model) (k : string) : bool :=
  bool_decide (k ∈ column_names m).

(** [hasattr(cls, k)] for the mapped class: a column or another attribute
    of the class. *)
Definition has_attribute (m : Model) (k : string) : bool :=
  has_column m k || class_attribute m k.


(** The integers the engine stores and binds: 64 bits, signed. *)
Definition in_int64 (z : Z) : bool :=
  (- 9223372036854775808 <=? z) && (z <? 9223372036854775808).

(** A [str] that holds a surrogate code point (here the three bytes of its
    generalised UTF-8 form) cannot be encoded for the driver. *)
Fixpoint has_surrogate (s : string) : bool :=
  match s with
  | String a r =>
      match r with
      | String b _ =>
          ((N_of_ascii a =? 237) && (160 <=? N_of_ascii b)
           && (N_of_ascii b <=? 191))%N
          || has_surrogate r
      | EmptyString => false
      end
  | EmptyString => false
  end.

(** A value of the kind of its column: [None], an integer of 64 bits in an
    integer column, a text without surrogates in a text column. *)
Definition fits (k : kind) (v : value) : bool :=
  match v, k with
  | VNull, _ => true
  | VInt z, KInt => in_int64 z
  | VStr s, KStr => negb (has_surrogate s)
  | _, _ => false
  end.

(** [getattr(obj, k)] on a loaded object: an attribute that was never set
    reads as [None]. *)
Definition attr (r : row) (k : string) : value := default VNull (r !! k).

(** [hasattr(obj, k)] on a loaded object. *)
Definition hasattr (r : row) (k : string) : bool := bool_decide (is_Some (r !! k)).

(** The declarative constructor, called with keyword arguments: every
    keyword must name an attribute of the class; the columns not given are
    [None].  A keyword that names an attribute of the class that is no
    column is set on the object only, which this model of an object as its
    row does not follow. *)
Definition blank (m : Model) : row :=
  list_to_map (map (fun k => (k, VNull)) (column_names m)).

Fixpoint construct_from (m : Model) (kwargs : payload) (obj : row) : result row :=
  match kwargs with
  | [] => ret obj
  | (k, v) :: kwargs =>
      if has_column m k then construct_from m kwargs (<[k := v]> obj)
      else if class_attribute m k then
        raise (NotModelled "keyword for an attribute that is no column")
      else raise (TypeError (k +:+ " is an invalid keyword argument"))
  end.

Definition construct (m : Model) (kwargs : payload) : result row :=
  construct_from m kwargs (blank m).

(** ** The ORM session

    [committed] is the table as stored, [pending] the table as the open
    transaction sees it, and the last [fresh] objects of [pending] are the
    ones added in this transaction and not yet inserted.  An object is known
    by its position in [pending]. *)
Record Session : Type := {
  committed : list row;
  pending : list row;
  fresh : nat
}.

Definition session_of (rows : list row) : Session :=
  {| committed := rows; pending := rows; fresh := 0 |}.

(** [db.add(obj)] *)
Definition session_add (db : Session) (obj : row) : Session * nat :=
  ({| committed := committed db;
      pending := pending db ++ [obj];
      fresh := S (fresh db) |},
   length (pending db)).

(** [setattr(obj, key, value)] on the object at position [h]. *)
Definition session_setattr (db : Session) (h : nat) (key : string) (v : value)
  : Session :=
  {| committed := committed db;
     pending := alter (fun r => <[key := v]> r) h (pending db);
     fresh := fresh db |}.

(** The key an integer primary key gets when a row is inserted without
    one: 1 in an empty table, one more than the largest key otherwise.  (At
    the largest key of 64 bits the engine looks for an unused key at random
    instead; that case is left out.) *)
Definition int_key (pk : string) (r : row) : option Z :=
  match r !! pk with
  | Some (VInt z) => Some z
  | _ => None
  end.

Definition next_key (pk : string) (rows : list row) : Z :=
  match omap (int_key pk) rows with
  | [] => 1
  | z :: zs => 1 + foldr Z.max z zs
  end.

Definition with_key (m : Model) (table : list row) (r : row) : row :=
  match pk_kind m, attr r (pk_column m) with
  | KInt, VNull => <[pk_column m := VInt (next_key (pk_column m) table)]> r
  | _, _ => r
  end.

(** The defaults of the columns, for the columns the object has [None]
    in. *)
Definition with_default (r : row) (c : Column) : row :=
  match col_default c, attr r (col_name c) with
  | Some d, VNull => <[col_name c := d]> r
  | _, _ => r
  end.

Definition with_defaults (m : Model) (r : row) : row :=
  fold_left with_default (columns m) r.

(** The row an insert stores for an object. *)
Definition on_insert (m : Model) (table : list row) (r : row) : row :=
  with_defaults m (with_key m table r).

Definition insert_row (m : Model) (table : list row) (r : row) : list row :=
  table ++ [on_insert m table r].

(** The flush of a commit: the fresh objects are inserted in the order they
    were added. *)
Definition flush (m : Model) (db : Session) : list row :=
  let n := (length (pending db) - fresh db)%nat in
  fold_left (insert_row m) (drop n (pending db)) (take n (pending db)).

(** The constraints of the table: the primary key is not null and unique; a
    column is not null unless nullable, and unique (among its values that
    are not null) when declared unique. *)
Definition col_values (c : string) (rows : list row) : list value :=
  map (fun r => attr r c) rows.

Definition not_null_ok (c : string) (rows : list row) : bool :=
  bool_decide (VNull ∉ col_values c rows).

Definition unique_ok (c : string) (rows : list row) : bool :=
  bool_decide (NoDup (filter (fun v => v ≠ VNull) (col_values c rows))).

Definition column_violations (m : Model) (rows : list row) (c : Column)
  : list string :=
  (if col_nullable c || not_null_ok (col_name c) rows then []
   else ["NOT NULL constraint failed: " +:+ tablename m +:+ "." +:+ col_name c])
  ++
  (if negb (col_unique c) || unique_ok (col_name c) rows then []
   else ["UNIQUE constraint failed: " +:+ tablename m +:+ "." +:+ col_name c]).

Definition violations (m : Model) (rows : list row) : list string :=
  (if not_null_ok (pk_column m) rows then []
   else ["NOT NULL constraint failed: " +:+ tablename m +:+ "." +:+ pk_column m])
  ++
  (if unique_ok (pk_column m) rows then []
   else ["UNIQUE constraint failed: " +:+ tablename m +:+ "." +:+ pk_column m])
  ++ flat_map (column_violations m rows) (columns m).

(** [db.commit()]: flush, then make the transaction's table the stored one;
    [IntegrityError] when the flushed table breaks a constraint, its
    argument the driver's message as the ORM wraps it.  (The integers of a
    payload are taken to be of 64 bits: the driver's [OverflowError] for a
    larger one is left out of the flush.) *)
Definition session_commit (m : Model) (db : Session) : Session * result unit :=
  let rows := flush m db in
  match violations m rows with
  | [] => (session_of rows, ret tt)
  | msg :: _ =>
      ({| committed := committed db; pending := rows; fresh := 0 |},
       raise (IntegrityError ["(sqlite3.IntegrityError) " +:+ msg]))
  end.

(** [db.rollback()] *)
Definition session_rollback (db : Session) : Session :=
  session_of (committed db).

(** [db.refresh(obj)]: the attributes of the object as stored. *)
Definition session_refresh (db : Session) (h : nat) : result row :=
  match pending db !! h with
  | Some r => ret r
  | None => raise (InvalidRequestError "Could not refresh instance")
  end.

(** ** Queries *)

(** [db.query(cls)] with what the route adds to it: the criteria of
    [filter], each the clauses of one [or_], and the window. *)
Record Query : Type := {
  criteria : list (list (string * json));
  q_limit : option Z;
  q_offset : option Z
}.

Definition session_query : Query :=
  {| criteria := []; q_limit := None; q_offset := None |}.

Definition query_filter (q : Query) (clauses : list (string * json)) : Query :=
  {| criteria := criteria q ++ [clauses];
     q_limit := q_limit q; q_offset := q_offset q |}.

Definition query_limit (q : Query) (l : option Z) : Query :=
  {| criteria := criteria q; q_limit := l; q_offset := q_offset q |}.

Definition query_offset (q : Query) (o : option Z) : Query :=
  {| criteria := criteria q; q_limit := q_limit q; q_offset := o |}.

(** A bound parameter.  The driver binds scalars only: [True] and [False]
    as 1 and 0, an integer when it is of 64 bits, a text when it can be
    encoded.  What a float is bound to is left out. *)
Definition bind_param (v : json) : result value :=
  match v with
  | JNull => ret VNull
  | JBool b => ret (VInt (if b then 1 else 0))
  | JInt z =>
      if in_int64 z then ret (VInt z)
      else raise (OverflowError
                    "Python int too large to convert to SQLite INTEGER")
  | JFloat l => raise (NotModelled "float parameter")
  | JStr s =>
      if has_surrogate s
      then raise (UnicodeEncodeError "surrogates not allowed")
      else ret (VStr s)
  | JArr _ | JObj _ =>
      raise (InterfaceError "Error binding parameter: unsupported type")
  end.

Fixpoint bind_clauses (cs : list (string * json)) : result (list (string * value)) :=
  match cs with
  | [] => ret []
  | (a, v) :: cs =>
      let* v' := bind_param v in
      let* cs' := bind_clauses cs in
      ret ((a, v') :: cs')
  end.

Fixpoint bind_criteria (gs : list (list (string * json)))
  : result (list (list (string * value))) :=
  match gs with
  | [] => ret []
  | g :: gs =>
      let* g' := bind_clauses g in
      let* gs' := bind_criteria gs in
      ret (g' :: gs')
  end.

(** [column == v]: [column IS NULL] for [None], [column = v] otherwise.
    Between a column and a value of the kind of the column the comparison
    holds when the column holds that very value.  What the engine makes of
    a comparison across kinds, where it converts one side, is left out: the
    statements on what a filter selects are made for values of the kind of
    their column. *)
Definition sql_eq (c v : value) : bool := bool_decide (c = v).

Definition clause_holds (r : row) (cl : string * value) : bool :=
  sql_eq (attr r (fst cl)) (snd cl).

(** [or_] of a sequence of clauses: the disjunction of its clauses.  Without
    clauses it is, in the SQLAlchemy 1.x this router is written against
    ([Query.get], [sqlalchemy.ext.declarative]), an empty construct that
    renders no SQL: a criterion that restricts nothing. *)
Definition or_holds (r : row) (g : list (string * value)) : bool :=
  match g with
  | [] => true
  | _ :: _ => existsb (clause_holds r) g
  end.

Definition row_matches (gs : list (list (string * value))) (r : row) : bool :=
  forallb (or_holds r) gs.

(** The rows the criteria select.  The query has no [ORDER BY]: the order
    of the rows is the engine's, here that of the table. *)
Definition query_rows (db : Session) (q : Query) : result (list row) :=
  let* gs := bind_criteria (criteria q) in
  ret (List.filter (row_matches gs) (pending db)).

(** [query.count()] *)
Definition query_count (db : Session) (q : Query) : result Z :=
  let* rows := query_rows db q in
  ret (Z.of_nat (length rows)).

(** [OFFSET] and [LIMIT] as the engine reads them: a negative limit is no
    limit, a negative offset is the offset 0.  (Both are bound as integers
    of 64 bits; a larger one is left out.) *)
Definition apply_offset (o : option Z) (rows : list row) : list row :=
  match o with
  | None => rows
  | Some n => drop (Z.to_nat n) rows
  end.

Definition apply_limit (l : option Z) (rows : list row) : list row :=
  match l with
  | None => rows
  | Some n => if n <? 0 then rows else take (Z.to_nat n) rows
  end.

(** [query.all()]: [OFFSET] is applied before [LIMIT], whatever the order
    of the two calls. *)
Definition query_all (db : Session) (q : Query) : result (list row) :=
  let* rows := query_rows db q in
  ret (apply_limit (q_limit q) (apply_offset (q_offset q) rows)).

(** [query.get(ident)]: the object with that primary key, and its
    position.  (The driver's [OverflowError] for an integer beyond 64 bits
    is left out: the statements that assert what the routes answer to an id
    are made for ids of the kind of the key.) *)
Fixpoint find_key (pk : string) (ident : value) (i : nat) (rows : list row)
  : option (nat * row) :=
  match rows with
  | [] => None
  | r :: rows =>
      if bool_decide (attr r pk = ident) then Some (i, r)
      else find_key pk ident (S i) rows
  end.

Definition query_get (pk : string) (db : Session) (ident : value)
  : option (nat * row) :=
  match ident with
  | VNull => None
  | _ => find_key pk ident 0 (pending db)
  end.

(** [query.delete()]: every row of the table. *)
Definition query_delete (db : Session) : Session :=
  {| committed := committed db; pending := []; fresh := 0 |}.

(** ** The response *)

Record Response : Type := { headers : gmap string string }.

Definition empty_response : Response := {| headers := ∅ |}.

(** [response.headers[k] = v] *)
Definition set_header (r : Response) (k v : string) : Response :=
  {| headers := <[k := v]> (headers r) |}.

(** [PAGINATION]: a [dict] from ["skip"] and ["limit"] to an optional
    integer; [pagination.get(k)] is [None] for a missing key. *)
Abbreviation PAGINATION := (gmap string (option Z)).

Definition pagination_get (p : PAGINATION) (k : string) : option Z :=
  default None (p !! k).

Definition mk_pagination (skip limit : option Z) : PAGINATION :=
  <["skip" := skip]> (<["limit" := limit]> ∅).

(** ** What the package provides around the router *)

(** Modelled from the spec: the constant [NOT_FOUND] of the package's
    [__init__], which is not among the sources.  The spec gives its status
    ("maps absent-record lookups to a NotFound response (404-equivalent)");
    the detail text is a placeholder. *)
Definition NOT_FOUND : exn := HTTPException 404 "Item not found".

(** Modelled from the spec: the part of [CRUDGenerator.__init__] that stores
    the route prefix; the base class is not among the sources.  The spec
    says of it that the prefix is "normalized to lowercase". *)
Definition CRUDGenerator_prefix (prefix : string) : string := str_lower prefix.

(** The status code the web framework answers with: a handler that returns
    answers 200; an [HTTPException] answers with its own status; any other
    exception is not caught and surfaces as a server fault, 500. *)
Definition status_of {A : Type} (r : result A) : Z :=
  match r with
  | inr _ => 200
  | inl (HTTPException code _) => code
  | inl _ => 500
  end.

Definition is_client_error (code : Z) : bool := (400 <=? code) && (code <? 500).

(** ** [SQLAlchemyCRUDRouter] *)

Record SQLAlchemyCRUDRouter : Type := {
  db_model : Model;
  _pk : string;
  prefix : string
}.

(** [prefix or db_model.__tablename__] *)
Definition prefix_or (prefix : option string) (default : string) : string :=
  match prefix with
  | Some p => if str_truthy (Some p) then p else default
  | None => default
  end.

(** [__init__]: the model, the name of its primary key column, and the
    prefix handed to the base class.  SQLAlchemy is taken to be installed;
    the schemas, the tags and the route switches, which the routes below do
    not read, are left out. *)
Definition __init__ (db_model : Model) (prefix : option string)
  : SQLAlchemyCRUDRouter :=
  {| db_model := db_model;
     _pk := pk_column db_model;
     prefix := CRUDGenerator_prefix (prefix_or prefix (tablename db_model)) |}.

(** [iter(value)] for the values a decoded filter can hold. *)
Definition py_iter (v : json) : result (list json) :=
  match v with
  | JArr items => ret items
  | JStr s => ret (map JStr (str_chars s))
  | JObj pairs => ret (map (fun kv => JStr (fst kv)) pairs)
  | JNull | JBool _ | JInt _ | JFloat _ =>
      raise (TypeError "object is not iterable")
  end.

(** [filter.items()] *)
Definition dict_items (v : json) : result (list (string * json)) :=
  match v with
  | JObj pairs => ret pairs
  | _ => raise (AttributeError "object has no attribute 'items'")
  end.

(** The clauses of [getattr(self.db_model, attr) == v for v in value]:
    [iter(value)] is taken when the generator is made, [getattr] is
    evaluated once per element when [or_] consumes it. *)
Definition filter_clauses (m : Model) (a : string) (value : json)
  : result (list (string * json)) :=
  let* vs := py_iter value in
  match vs with
  | [] => ret []
  | _ :: _ =>
      if has_column m a then ret (map (fun v => (a, v)) vs)
      else if class_attribute m a then
        raise (NotModelled "comparison of an attribute that is no column")
      else raise (AttributeError ("type object has no attribute " +:+ a))
  end.

(** The loop over [filter.items()]. *)
Fixpoint apply_filter (m : Model) (items : list (string * json)) (query : Query)
  : result Query :=
  match items with
  | [] => ret query
  | (a, value) :: items =>
      let* clauses := filter_clauses m a value in
      apply_filter m items (query_filter query clauses)
  end.

(** The header [f"{skip}-{skip + len(db_models) - 1}/{total}"]. *)
Definition content_range (skip : Z) (returned : nat) (total : Z) : string :=
  pretty skip +:+ "-" +:+ pretty (skip + Z.of_nat returned - 1)
  +:+ "/" +:+ pretty total.

(** The query of the route of [_get_all]: the raw query, filtered when
    [filter] is truthy. *)
Definition filter_query (self : SQLAlchemyCRUDRouter) (filter : option string)
  : result Query :=
  let query := session_query in
  if str_truthy filter then
    let* filter := json_loads (default "" filter) in
    let* items := dict_items filter in
    apply_filter (db_model self) items query
  else ret query.

(** The body of the route of [_get_all], once its parameters are bound. *)
Definition get_all_body (self : SQLAlchemyCRUDRouter) (response : Response)
    (db : Session) (pagination : PAGINATION) (filter sort : option string)
  : Response * result (list row) :=
  let skip := pagination_get pagination "skip" in
  let limit := pagination_get pagination "limit" in
  match filter_query self filter with
  | inl e => (response, inl e)
  | inr query =>
      match query_count db query with
      | inl e => (response, inl e)
      | inr total =>
          match query_all db (query_offset (query_limit query limit) skip) with
          | inl e => (response, inl e)
          | inr db_models =>
              match skip with
              | None =>
                  (response,
                   raise (TypeError "unsupported operand type(s) for +: 'NoneType' and 'int'"))
              | Some skip =>
                  (set_header response "Content-Range"
                     (content_range skip (length db_models) total),
                   ret db_models)
              end
          end
      end
  end.

(** The route of [_get_all].  [response] is its one parameter without a
    default: a call that does not pass it raises [TypeError] before the body
    runs.  The other parameters are given here by the caller. *)
Definition _get_all (self : SQLAlchemyCRUDRouter) (response : option Response)
    (db : Session) (pagination : PAGINATION) (filter sort : option string)
  : option Response * result (list row) :=
  match response with
  | None =>
      (None,
       raise (TypeError "route() missing 1 required positional argument: 'response'"))
  | Some response =>
      let '(response, r) := get_all_body self response db pagination filter sort in
      (Some response, r)
  end.

(** The route of [_get_one]: the object and its position in the session. *)
Definition _get_one (self : SQLAlchemyCRUDRouter) (item_id : value) (db : Session)
  : result (nat * row) :=
  match query_get (_pk self) db item_id with
  | Some model => ret model
  | None => raise NOT_FOUND
  end.

(** The route of [_create]. *)
Definition _create (self : SQLAlchemyCRUDRouter) (model : payload) (db : Session)
  : Session * result row :=
  match construct (db_model self) model with
  | inl e => (db, inl e)
  | inr obj =>
      let '(db, h) := session_add db obj in
      match session_commit (db_model self) db with
      | (db, inl (IntegrityError _)) =>
          (session_rollback db, raise (HTTPException 422 "Key already exists"))
      | (db, inl e) => (db, inl e)
      | (db, inr _) =>
          match session_refresh db h with
          | inl e => (db, inl e)
          | inr r => (db, ret r)
          end
      end
  end.

(** [model.dict(exclude={self._pk})] *)
Definition dict_exclude (k : string) (d : payload) : payload :=
  List.filter (fun kv => negb (String.eqb (fst kv) k)) d.

(** The loop of [_update] over the payload's items. *)
Fixpoint set_fields (db : Session) (h : nat) (items : payload) : Session :=
  match items with
  | [] => db
  | (key, v) :: items =>
      match pending db !! h with
      | Some obj =>
          if hasattr obj key
          then set_fields (session_setattr db h key v) h items
          else set_fields db h items
      | None => set_fields db h items
      end
  end.

(** The route of [_update]. *)
Definition _update (self : SQLAlchemyCRUDRouter) (item_id : value)
    (model : payload) (db : Session) : Session * result row :=
  match _get_one self item_id db with
  | inl e => (db, inl e)
  | inr (h, _) =>
      let db := set_fields db h (dict_exclude (_pk self) model) in
      match session_commit (db_model self) db with
      | (db, inl (IntegrityError args)) =>
          (session_rollback db, raise (HTTPException 422 (str_join ", " args)))
      | (db, inl e) => (db, inl e)
      | (db, inr _) =>
          match session_refresh db h with
          | inl e => (db, inl e)
          | inr r => (db, ret r)
          end
      end
  end.

(** The route of [_delete_all]: it calls the route of [_get_all] with [db]
    and [pagination] only. *)
Definition _delete_all (self : SQLAlchemyCRUDRouter) (db : Session)
  : Session * (option Response * result (list row)) :=
  let db := query_delete db in
  match session_commit (db_model self) db with
  | (db, inl e) => (db, (None, inl e))
  | (db, inr _) =>
      (db, _get_all self None db (mk_pagination (Some 0) None) None None)
  end.

(** [db.delete(obj)] of the object at position [h]. *)
Definition session_delete (db : Session) (h : nat) : Session :=
  {| committed := committed db;
     pending := delete h (pending db);
     fresh := fresh db |}.

(** The route of [_delete_one]: the object as it was read is what the route
    returns.  There is no [try] around the commit. *)
Definition _delete_one (self : SQLAlchemyCRUDRouter) (item_id : value)
    (db : Session) : Session * result row :=
  match _get_one self item_id db with
  | inl e => (db, inl e)
  | inr (h, record) =>
      let db := session_delete db h in
      match session_commit (db_model self) db with
      | (db, inl e) => (db, inl e)
      | (db, inr _) => (db, ret record)
      end
  end.

(** ** Running requests *)



(** Text in double quotes, for writing JSON. *)
Definition quoted (s : string) : string :=
  String dquote (s +:+ String dquote "").

(** ** Notions the statements use *)

(** A parse that did not run out of fuel and, when it succeeded, left less
    input than it was given. *)
Definition consumes (p : parsed json) (s : string) : Prop :=
  p <> Exhausted /\
  forall v r, p = Parsed v r -> (String.length r < String.length s)%nat.

(** What the loop of [_update] makes of one object. *)
Fixpoint apply_items (obj : row) (items : payload) : row :=
  match items with
  | [] => obj
  | (key, v) :: items =>
      if hasattr obj key then apply_items (<[key := v]> obj) items
      else apply_items obj items
  end.

(** The value the last item of a payload gives to a key. *)
Fixpoint last_binding (k : string) (items : payload) : option value :=
  match items with
  | [] => None
  | (k', v) :: items =>
      match last_binding k items with
      | Some w => Some w
      | None => if String.eqb k k' then Some v else None
      end
  end.

(** A filter specification: for each attribute, the values it accepts.  Its
    JSON form is an object of arrays of scalars. *)
Abbreviation filter_spec := (list (string * list value)).

Definition json_of_value (v : value) : json :=
  match v with
  | VNull => JNull
  | VBool b => JBool b
  | VInt z => JInt z
  | VFloat l => JFloat l
  | VStr s => JStr s
  end.

Definition json_of_spec (spec : filter_spec) : json :=
  JObj (map (fun av => (fst av, JArr (map json_of_value (snd av)))) spec).




(** ** An example: a table of users

    The table of the spec's scenario: an integer key [id], a unique [name]
    and an optional [age]. *)
Definition dunder (k : string) : bool :=
  match strip_prefix "__" k with
  | Some _ => true
  | None => false
  end.

Definition users : Model :=
  {| tablename := "Users";
     pk_column := "id";
     pk_kind := KInt;
     columns := [ {| col_name := "name"; col_kind := KStr; col_unique := true;
                     col_nullable := false; col_default := None |};
                  {| col_name := "age"; col_kind := KInt; col_unique := false;
                     col_nullable := true; col_default := None |} ];
     class_attribute :=
       fun k => dunder k
                || bool_decide (k ∈ ["metadata"; "registry"; "_sa_class_manager";
                                     "_sa_registry"; "_decl_class_registry"]) |}.

Definition users_router : SQLAlchemyCRUDRouter := __init__ users None.

Definition user (id : Z) (name : string) (age : value) : row :=
  <["id" := VInt id]> (<["name" := VStr name]> (<["age" := age]> ∅)).

(** A user as the constructor leaves it: no key yet. *)
Definition user_draft (name : string) : row :=
  <["id" := VNull]> (<["name" := VStr name]> (<["age" := VNull]> ∅)).

Definition three_users : list row :=
  [user 1 "a" VNull; user 2 "b" (VInt 3); user 3 "c" VNull].

(** The filter [{"name":["a","c"]}] and what it specifies. *)
Definition filter_a_c : string :=
  "{" +:+ quoted "name" +:+ ":[" +:+ quoted "a" +:+ "," +:+ quoted "c" +:+ "]}".


(** The filters [[1]], [{"id":5}], [{"name":"ac"}] and [{"nick":["x"]}]. *)
Definition filter_array : string := "[1]".

Definition filter_id_5 : string := "{" +:+ quoted "id" +:+ ":5}".

Definition filter_name_ac : string :=
  "{" +:+ quoted "name" +:+ ":" +:+ quoted "ac" +:+ "}".

Definition filter_nick : string :=
  "{" +:+ quoted "nick" +:+ ":[" +:+ quoted "x" +:+ "]}".


(** * The decoder consumes its input *)

Ltac break_match_in H :=
  first
    [ match type of H with
      | context [scanstring ?x] => is_var x; destruct (scanstring x) as [[? ?]|] eqn:?
      end
    | match type of H with
      | context [match ?x with _ => _ end] => destruct x eqn:?
      | context [if ?x then _ else _] => destruct x eqn:?
      end ].

Ltac break_matches H := repeat (break_match_in H; try discriminate H).

Lemma skip_ws_length s : (String.length (skip_ws s) <= String.length s)%nat.
Proof.
  induction s as [|c s IH]; simpl; [lia|].
  destruct (is_ws c); simpl; lia.
Qed.

Lemma scanstring_length s :
  forall str r, scanstring s = Some (str, r) ->
                (String.length r < String.length s)%nat.
Proof.
  remember (String.length s) as n eqn:Hn. revert s Hn.
  induction n as [n IH] using lt_wf_ind.
  intros s Hn str r H. subst n.
  destruct s as [|c s]; simpl in H; [discriminate|].
  break_matches H; inversion H; subst; cbn [String.length] in *;
    repeat match goal with
    | E : scanstring ?x = Some (_, ?y) |- _ =>
        assert (String.length y < String.length x)%nat
          by (eapply IH; [| reflexivity | exact E]; cbn [String.length]; lia);
        clear E
    end; cbn [String.length] in *; lia.
Qed.

Lemma scan_digits_length s ds r :
  scan_digits s = (ds, r) -> (String.length r <= String.length s)%nat.
Proof.
  revert ds r. induction s as [|c s IH]; intros ds r H; simpl in H.
  - inversion H; simpl; lia.
  - destruct (is_digit c).
    + destruct (scan_digits s) as [ds' r'] eqn:E. inversion H; subst.
      specialize (IH _ _ eq_refl). simpl; lia.
    + inversion H; subst; simpl; lia.
Qed.

Lemma scan_integer_length s ds r :
  scan_integer s = Some (ds, r) -> (String.length r < String.length s)%nat.
Proof.
  destruct s as [|c s]; simpl; [discriminate|].
  destruct (Ascii.eqb c "0"); [intros H; inversion H; subst; simpl; lia|].
  destruct (is_digit c); [|discriminate].
  destruct (scan_digits s) as [ds' r'] eqn:E. intros H; inversion H; subst.
  apply scan_digits_length in E. simpl; lia.
Qed.

Lemma scan_frac_length s f r :
  scan_frac s = (f, r) -> (String.length r <= String.length s)%nat.
Proof.
  unfold scan_frac. intros H.
  destruct s as [|p [|d s]]; try (inversion H; subst; simpl; lia).
  destruct (Ascii.eqb p "." && is_digit d); [|inversion H; subst; simpl; lia].
  destruct (scan_digits s) as [ds' r'] eqn:E. inversion H; subst.
  apply scan_digits_length in E. simpl; lia.
Qed.

Lemma scan_exp_length s e r :
  scan_exp s = (e, r) -> (String.length r <= String.length s)%nat.
Proof.
  unfold scan_exp. intros H.
  repeat first
    [ match type of H with
      | context [scan_digits ?x] => destruct (scan_digits x) as [? ?] eqn:?
      end
    | match type of H with
      | context [match ?x with _ => _ end] => destruct x eqn:?
      | context [if ?x then _ else _] => destruct x eqn:?
      end ];
    inversion H; subst;
    repeat match goal with
    | E : scan_digits _ = _ |- _ => apply scan_digits_length in E
    end; cbn [String.length] in *; lia.
Qed.

Lemma match_number_length s v r :
  match_number s = Some (v, r) -> (String.length r < String.length s)%nat.
Proof.
  unfold match_number. intros H.
  assert (Hs : forall neg s1,
             (String.length s1 <= String.length s)%nat ->
             match scan_integer s1 with
             | Some (int_part, r1) =>
                 let '(frac, r2) := scan_frac r1 in
                 let '(exp, r3) := scan_exp r2 in
                 match frac, exp with
                 | EmptyString, EmptyString =>
                     Some (JInt (if neg : bool
                                 then - int_of_digits 0 int_part
                                 else int_of_digits 0 int_part), r3)
                 | _, _ =>
                     Some (JFloat ((if neg then "-" else "") +:+ int_part
                                   +:+ frac +:+ exp), r3)
                 end
             | None => None
             end = Some (v, r) ->
             (String.length r < String.length s)%nat).
  { clear H. intros neg s1 Hle H.
    destruct (scan_integer s1) as [[ip r1]|] eqn:E1; [|discriminate].
    destruct (scan_frac r1) as [f r2] eqn:E2.
    destruct (scan_exp r2) as [e r3] eqn:E3.
    apply scan_integer_length in E1. apply scan_frac_length in E2.
    apply scan_exp_length in E3.
    destruct f, e; inversion H; subst; lia. }
  destruct s as [|c s]; [apply (Hs false ""); [simpl; lia | exact H]|].
  destruct (Ascii.eqb c "-").
  - apply (Hs true s); [simpl; lia | exact H].
  - apply (Hs false (String c s)); [lia | exact H].
Qed.

Lemma strip_prefix_length p s r :
  strip_prefix p s = Some r ->
  String.length s = (String.length p + String.length r)%nat.
Proof.
  revert s. induction p as [|a p IH]; intros s H; simpl in H.
  - inversion H; reflexivity.
  - destruct s as [|b s]; [discriminate|].
    destruct (Ascii.eqb a b); [|discriminate].
    apply IH in H. simpl; lia.
Qed.

Lemma scan_scalar_length s v r :
  scan_scalar s = Parsed v r -> (String.length r < String.length s)%nat.
Proof.
  unfold scan_scalar. intros H.
  repeat match type of H with
  | context [strip_prefix ?p s] =>
      let E := fresh "E" in
      destruct (strip_prefix p s) eqn:E;
      [apply strip_prefix_length in E; inversion H; subst;
       cbn [String.length] in E; lia|]
  | context [match_number s] =>
      let E := fresh "E" in
      destruct (match_number s) as [[? ?]|] eqn:E;
      [apply match_number_length in E; inversion H; subst; lia|]
  end.
  discriminate.
Qed.

Lemma scan_scalar_not_exhausted s : scan_scalar s <> Exhausted.
Proof.
  unfold scan_scalar.
  repeat match goal with
  | |- context [strip_prefix ?p s] => destruct (strip_prefix p s)
  | |- context [match_number s] => destruct (match_number s) as [[? ?]|]
  end; discriminate.
Qed.

Lemma consumes_malformed s : consumes Malformed s.
Proof. split; [discriminate | intros ? ? [=]]. Qed.

Lemma consumes_parsed v r s :
  (String.length r < String.length s)%nat -> consumes (Parsed v r) s.
Proof. intros H. split; [discriminate | intros ? ? [=]; subst; exact H]. Qed.

Lemma consumes_weaken p s s' :
  (String.length s <= String.length s')%nat -> consumes p s -> consumes p s'.
Proof.
  intros Hle [H1 H2]. split; [exact H1|].
  intros v r E. specialize (H2 v r E). lia.
Qed.

Lemma scan_fuel n :
  (forall s, (2 * String.length s + 1 <= n)%nat -> consumes (scan_once n s) s)
  /\ (forall s pairs, (2 * String.length s + 2 <= n)%nat ->
                      consumes (JSONObject_loop n s pairs) s)
  /\ (forall s values, (2 * String.length s + 2 <= n)%nat ->
                       consumes (JSONArray_loop n s values) s).
Proof.
  induction n as [|n (IHv & IHo & IHa)].
  { repeat split; intros; lia. }
  split; [|split].
  - intros s Hn. destruct s as [|c s]; simpl; [apply consumes_malformed|].
    cbn [String.length] in Hn.
    destruct (Ascii.eqb c dquote).
    { destruct (scanstring s) as [[str r]|] eqn:E; [|apply consumes_malformed].
      apply scanstring_length in E. apply consumes_parsed. simpl; lia. }
    pose proof (skip_ws_length s) as Hws.
    destruct (Ascii.eqb c "{").
    { destruct (skip_ws s) as [|c' r'] eqn:E; [apply consumes_malformed|].
      cbn [String.length] in Hws.
      destruct (Ascii.eqb c' "}"); [apply consumes_parsed; simpl; lia|].
      destruct (Ascii.eqb c' dquote); [|apply consumes_malformed].
      apply (consumes_weaken _ r'); [simpl; lia|]. apply IHo. lia. }
    destruct (Ascii.eqb c "[").
    { destruct (skip_ws s) as [|c' r'] eqn:E; [apply consumes_malformed|].
      cbn [String.length] in Hws.
      destruct (Ascii.eqb c' "]"); [apply consumes_parsed; simpl; lia|].
      apply (consumes_weaken _ (String c' r')); [simpl; lia|].
      apply IHa. simpl; lia. }
    split; [apply scan_scalar_not_exhausted|].
    intros v r E. apply scan_scalar_length in E. exact E.
  - intros s pairs Hn. simpl.
    destruct (scanstring s) as [[key r]|] eqn:E; [|apply consumes_malformed].
    apply scanstring_length in E.
    pose proof (skip_ws_length r) as Hws.
    destruct (skip_ws r) as [|c r1]; [apply consumes_malformed|].
    cbn [String.length] in Hws.
    destruct (Ascii.eqb c ":"); [|apply consumes_malformed].
    pose proof (skip_ws_length r1) as Hws1.
    destruct (IHv (skip_ws r1) ltac:(lia)) as [Hne Hlen].
    destruct (scan_once n (skip_ws r1)) as [v r2| |] eqn:Ev;
      [|apply consumes_malformed|congruence].
    specialize (Hlen v r2 eq_refl).
    pose proof (skip_ws_length r2) as Hws2.
    destruct (skip_ws r2) as [|d r3]; [apply consumes_malformed|].
    cbn [String.length] in Hws2.
    destruct (Ascii.eqb d "}"); [apply consumes_parsed; lia|].
    destruct (Ascii.eqb d ","); [|apply consumes_malformed].
    pose proof (skip_ws_length r3) as Hws3.
    destruct (skip_ws r3) as [|q r4]; [apply consumes_malformed|].
    cbn [String.length] in Hws3.
    destruct (Ascii.eqb q dquote); [|apply consumes_malformed].
    apply (consumes_weaken _ r4); [lia|]. apply IHo. lia.
  - intros s values Hn. simpl.
    destruct (IHv s ltac:(lia)) as [Hne Hlen].
    destruct (scan_once n s) as [v r| |] eqn:Ev;
      [|apply consumes_malformed|congruence].
    specialize (Hlen v r eq_refl).
    pose proof (skip_ws_length r) as Hws.
    destruct (skip_ws r) as [|d r1]; [apply consumes_malformed|].
    cbn [String.length] in Hws.
    destruct (Ascii.eqb d "]"); [apply consumes_parsed; lia|].
    destruct (Ascii.eqb d ","); [|apply consumes_malformed].
    pose proof (skip_ws_length r1) as Hws1.
    apply (consumes_weaken _ (skip_ws r1)); [lia|]. apply IHa. lia.
Qed.

(** The counter [json_loads] starts with never runs out. *)
Lemma json_loads_fuel s :
  scan_once (loads_fuel s) (skip_ws s) <> Exhausted.
Proof.
  destruct (scan_fuel (loads_fuel s)) as (Hv & _ & _).
  apply Hv. pose proof (skip_ws_length s). unfold loads_fuel. lia.
Qed.

(** * The session *)

Lemma pagination_get_skip skip limit :
  pagination_get (mk_pagination skip limit) "skip" = skip.
Proof. unfold pagination_get, mk_pagination. by rewrite lookup_insert_eq. Qed.

Lemma pagination_get_limit skip limit :
  pagination_get (mk_pagination skip limit) "limit" = limit.
Proof.
  unfold pagination_get, mk_pagination.
  rewrite lookup_insert_ne; [|done]. by rewrite lookup_insert_eq.
Qed.

Lemma flush_clean m table : flush m (session_of table) = table.
Proof.
  unfold flush. cbn [pending fresh session_of].
  rewrite Nat.sub_0_r, take_ge, drop_ge by lia. reflexivity.
Qed.

Lemma flush_add m table obj :
  flush m (fst (session_add (session_of table) obj))
  = table ++ [on_insert m table obj].
Proof.
  unfold flush, session_add. cbn [fst pending fresh session_of].
  rewrite length_app. cbn [length].
  replace (length table + 1 - 1)%nat with (length table) by lia.
  rewrite take_app_length, drop_app_length. reflexivity.
Qed.

Lemma violations_nil m : violations m [] = [].
Proof.
  unfold violations. cbn.
  induction (columns m) as [|c cs IH]; [reflexivity|].
  cbn. unfold column_violations at 1. cbn.
  rewrite !orb_true_r. exact IH.
Qed.

(** What [_create] does, case by case. *)
Lemma create_cases self model table :
  _create self model (session_of table) =
  match construct (db_model self) model with
  | inl e => (session_of table, inl e)
  | inr obj =>
      let r := on_insert (db_model self) table obj in
      match violations (db_model self) (table ++ [r]) with
      | [] => (session_of (table ++ [r]), inr r)
      | _ :: _ =>
          (session_of table, inl (HTTPException 422 "Key already exists"))
      end
  end.
Proof.
  unfold _create.
  destruct (construct (db_model self) model) as [e|obj]; [reflexivity|].
  pose proof (flush_add (db_model self) table obj) as Hf.
  destruct (session_add (session_of table) obj) as [db h] eqn:Ea.
  assert (Hh : h = length table) by (unfold session_add in Ea; by inversion Ea).
  cbn [fst] in Hf. unfold session_commit. rewrite Hf. cbv zeta.
  destruct (violations _ _) as [|msg msgs].
  - unfold session_refresh. cbn [pending session_of]. subst h.
    rewrite lookup_app_r, Nat.sub_diag by lia. reflexivity.
  - unfold session_rollback. cbn [committed].
    unfold session_add in Ea. inversion Ea. reflexivity.
Qed.



(** * The list route *)


Lemma apply_limit_sublist l (rows : list row) : apply_limit l rows `sublist_of` rows.
Proof.
  destruct l as [n|]; cbn; [|reflexivity].
  destruct (n <? 0); [reflexivity | apply sublist_take].
Qed.



(** C9. The [sort] parameter of the list route is inert: two requests that
    differ in [sort] only return the same items and the same headers. *)
Theorem get_all_sort_inert :
  forall self response db pagination filter sort1 sort2,
    _get_all self response db pagination filter sort1
    = _get_all self response db pagination filter sort2.
Proof.
  intros self [response|] db pagination filter sort1 sort2; reflexivity.
Qed.


(** * Deleting every record *)

(** C2 (the code departs from the claim).  The route of [_delete_all]
    empties the table and commits, and then calls the list route without the
    [response] argument that route requires: the call raises [TypeError], so
    the request ends in an exception, with neither a list nor a
    [Content-Range] header, whatever the table held. *)
Theorem delete_all_raises :
  forall self db,
    _delete_all self db
    = (session_of [],
       (None,
        inl (TypeError
               "route() missing 1 required positional argument: 'response'"))).
Proof.
  intros self db. unfold _delete_all, session_commit, flush, query_delete.
  cbn [pending fresh length drop take fold_left Nat.sub].
  rewrite violations_nil. reflexivity.
Qed.

(** * A filter that does not parse *)

Lemma json_loads_raises s e : json_loads s = inl e -> e = JSONDecodeError.
Proof.
  unfold json_loads, raise, ret. intros H.
  destruct (scan_once _ _) as [v r| |]; [destruct (skip_ws r)|..]; congruence.
Qed.

(** The filter [{] is not valid JSON; the list route raises the decoder's
    [JSONDecodeError], which is no [HTTPException]: the request ends as a
    server fault (500), not as a client error.  The empty string, which is
    not valid JSON either, is taken as no filter: the request succeeds. *)
Lemma malformed_filter_not_client_error :
  (json_loads "{" = inl JSONDecodeError /\
   snd (_get_all users_router (Some empty_response) (session_of [])
          (mk_pagination (Some 0) None) (Some "{") None)
   = inl JSONDecodeError /\
   is_client_error
     (status_of
        (snd (_get_all users_router (Some empty_response) (session_of [])
                (mk_pagination (Some 0) None) (Some "{") None)))
   = false)
  /\
  (json_loads EmptyString = inl JSONDecodeError /\
   snd (_get_all users_router (Some empty_response) (session_of [])
          (mk_pagination (Some 0) None) (Some EmptyString) None)
   = inr []).
Proof. vm_compute. repeat split; reflexivity. Qed.

(** C3 (the code departs from the claim).  A filter string that is not
    empty and that [json.loads] rejects makes the list route raise
    [JSONDecodeError]; no handler catches it, so the request ends as a
    server fault (500), where the claim asks for a client error, and the
    response is left without a [Content-Range] header.  An empty filter
    string is taken as no filter: the route parses a filter only when it is
    truthy. *)
Theorem malformed_filter_propagates :
  (forall self response db pagination filter sort e,
      filter <> EmptyString ->
      json_loads filter = inl e ->
      e = JSONDecodeError /\
      _get_all self (Some response) db pagination (Some filter) sort
      = (Some response, inl JSONDecodeError) /\
      status_of
        (snd (_get_all self (Some response) db pagination (Some filter) sort))
      = 500)
  /\
  (forall self response db pagination sort,
      _get_all self response db pagination (Some EmptyString) sort
      = _get_all self response db pagination None sort).
Proof.
  split.
  - intros self response db pagination filter sort e Hne Hj.
    pose proof (json_loads_raises _ _ Hj) as ->.
    assert (H : _get_all self (Some response) db pagination (Some filter) sort
                = (Some response, inl JSONDecodeError)).
    { unfold _get_all, get_all_body, filter_query.
      destruct filter as [|c filter]; [congruence|].
      cbn [str_truthy]. unfold default. cbn [from_option id].
      rewrite Hj. reflexivity. }
    rewrite H. repeat split; reflexivity.
  - intros self [response|] db pagination sort; reflexivity.
Qed.

(** * The route prefix *)

Lemma lower_ascii_idem c : lower_ascii (lower_ascii c) = lower_ascii c.
Proof. destruct c as [[] [] [] [] [] [] [] []]; reflexivity. Qed.

Lemma str_lower_idem s : str_lower (str_lower s) = str_lower s.
Proof.
  induction s as [|c s IH]; cbn; [reflexivity|].
  by rewrite lower_ascii_idem, IH.
Qed.

Lemma str_lower_nonempty s : s <> EmptyString -> str_lower s <> EmptyString.
Proof. destruct s; [congruence | discriminate]. Qed.

Lemma prefix_or_nonempty p d : d <> EmptyString -> prefix_or p d <> EmptyString.
Proof.
  intros Hd. destruct p as [[|c p]|]; cbn; [exact Hd | discriminate | exact Hd].
Qed.

(** C4.  A router made without a prefix has the table name of its model, in
    lowercase, as its prefix; the prefix of every router equals its own
    lowercase form, and is not empty when the table has a name. *)
Theorem prefix_lowercase_nonempty :
  forall db_model prefix0,
    prefix (__init__ db_model None) = str_lower (tablename db_model) /\
    str_lower (prefix (__init__ db_model prefix0))
    = prefix (__init__ db_model prefix0) /\
    (tablename db_model <> EmptyString ->
     prefix (__init__ db_model prefix0) <> EmptyString).
Proof.
  intros m p. cbn [prefix __init__]. unfold CRUDGenerator_prefix.
  split; [reflexivity|]. split; [apply str_lower_idem|].
  intros Hn. by apply str_lower_nonempty, prefix_or_nonempty.
Qed.

Lemma prefix_lowercase_nonempty_witness :
  tablename users <> EmptyString /\
  prefix (__init__ users None) = "users" /\
  str_lower (prefix (__init__ users None)) = prefix (__init__ users None) /\
  prefix (__init__ users None) <> EmptyString.
Proof.
  assert (Hn : tablename users <> EmptyString) by discriminate.
  destruct (prefix_lowercase_nonempty users None) as (H1 & H2 & H3).
  split; [exact Hn|]. split; [exact H1|]. split; [exact H2 | exact (H3 Hn)].
Defined.

(** * Creating a record *)

(** C5.  A create whose commit raises [IntegrityError] answers 422, and the
    session is rolled back to the table as it was: the number of records is
    unchanged.  A create that succeeds stores exactly one new record, the
    one it returns, after the records that were there. *)
Theorem create_conflict_or_one_record :
  forall self model table,
    (forall obj args,
        construct (db_model self) model = inr obj ->
        snd (session_commit (db_model self)
               (fst (session_add (session_of table) obj)))
        = inl (IntegrityError args) ->
        _create self model (session_of table)
        = (session_of table, inl (HTTPException 422 "Key already exists")))
    /\
    (forall db r,
        _create self model (session_of table) = (db, inr r) ->
        db = session_of (table ++ [r]) /\
        length (committed db) = S (length table)).
Proof.
  intros self model table. split.
  - intros obj args Hc Hi. rewrite create_cases, Hc. cbv zeta.
    unfold session_commit in Hi. rewrite flush_add in Hi. cbv zeta in Hi.
    destruct (violations _ _); [discriminate Hi | reflexivity].
  - intros db r H. rewrite create_cases in H.
    destruct (construct _ _) as [e|obj]; [inversion H|].
    cbv zeta in H. destruct (violations _ _); inversion H; subst.
    split; [reflexivity|]. cbn [committed session_of].
    rewrite length_app. cbn. lia.
Qed.

(** * Reading back what was created *)






Lemma violations_nil_pk m rows :
  violations m rows = [] ->
  not_null_ok (pk_column m) rows = true /\ unique_ok (pk_column m) rows = true.
Proof.
  unfold violations. intros H.
  destruct (not_null_ok _ _); [|discriminate H].
  destruct (unique_ok _ _); [|discriminate H]. by split.
Qed.

Lemma col_values_app c l k : col_values c (l ++ k) = col_values c l ++ col_values c k.
Proof. unfold col_values. apply map_app. Qed.

Lemma elem_of_col_values c rows v :
  v ∈ col_values c rows <-> exists r, r ∈ rows /\ attr r c = v.
Proof.
  unfold col_values. rewrite list_elem_of_In, in_map_iff. split.
  - intros (r & E & Hr). exists r. by rewrite list_elem_of_In.
  - intros (r & Hr & E). exists r. by rewrite <- list_elem_of_In.
Qed.

Lemma filter_not_null (vs : list value) :
  VNull ∉ vs -> filter (fun v => v ≠ VNull) vs = vs.
Proof.
  induction vs as [|v vs IH]; intros Hn; [reflexivity|].
  apply not_elem_of_cons in Hn as [Hne Hn].
  rewrite filter_cons_True by congruence. by rewrite IH.
Qed.

(** On a table that keeps the constraints of the key, the last row is found
    by its key. *)
Lemma find_key_last pk table r :
  forall i,
    (forall r', r' ∈ table -> attr r' pk ≠ attr r pk) ->
    find_key pk (attr r pk) i (table ++ [r]) = Some ((i + length table)%nat, r).
Proof.
  induction table as [|r0 table IH]; intros i Hne; cbn.
  - rewrite bool_decide_eq_true_2 by reflexivity. do 2 f_equal. lia.
  - rewrite bool_decide_eq_false_2 by (apply Hne; left).
    rewrite IH by (intros r' Hr'; apply Hne; by right).
    do 2 f_equal. lia.
Qed.

Lemma key_constraints pk table r :
  not_null_ok pk (table ++ [r]) = true ->
  unique_ok pk (table ++ [r]) = true ->
  attr r pk ≠ VNull /\ forall r', r' ∈ table -> attr r' pk ≠ attr r pk.
Proof.
  unfold not_null_ok, unique_ok. intros Hnn Hu.
  apply bool_decide_eq_true_1 in Hnn. apply bool_decide_eq_true_1 in Hu.
  rewrite filter_not_null in Hu by exact Hnn.
  rewrite col_values_app in Hnn, Hu. split.
  - intros E. apply Hnn. apply elem_of_app. right. cbn. rewrite E. left.
  - intros r' Hr' E. apply NoDup_app in Hu as (_ & Hd & _).
    apply (Hd (attr r' pk)).
    + apply elem_of_col_values. by exists r'.
    + cbn. rewrite E. left.
Qed.

Lemma query_get_find pk db ident :
  ident ≠ VNull -> query_get pk db ident = find_key pk ident 0 (pending db).
Proof. intros H. by destruct ident. Qed.



(** * Updating a record *)

Lemma apply_items_lookup items :
  forall obj,
    (forall k, k ∉ map fst items -> apply_items obj items !! k = obj !! k) /\
    (forall k, obj !! k = None -> apply_items obj items !! k = None) /\
    (NoDup (map fst items) ->
     forall k v, (k, v) ∈ items -> is_Some (obj !! k) ->
                 apply_items obj items !! k = Some v).
Proof.
  induction items as [|[k0 v0] items IH]; intros obj; cbn [apply_items map fst].
  - split; [reflexivity|]. split; [tauto|].
    intros _ k v Hin. by apply elem_of_nil in Hin.
  - unfold hasattr. case_bool_decide as Hk0.
    + destruct (IH (<[k0 := v0]> obj)) as (Hout & Hnone & Hin).
      split; [|split].
      * intros k Hk. apply not_elem_of_cons in Hk as [Hne Hk].
        rewrite (Hout k Hk). by rewrite lookup_insert_ne.
      * intros k Hk. apply Hnone.
        rewrite lookup_insert_ne; [exact Hk|].
        intros ->. rewrite Hk in Hk0. by destruct Hk0.
      * intros Hnd k v Hkv Hs. apply NoDup_cons in Hnd as [Hk Hnd].
        apply elem_of_cons in Hkv as [[= -> ->]|Hkv].
        -- rewrite (Hout k0 Hk). by rewrite lookup_insert_eq.
        -- apply (Hin Hnd k v Hkv).
           destruct (decide (k0 = k)) as [->|Hne];
             [by rewrite lookup_insert_eq | by rewrite lookup_insert_ne].
    + destruct (IH obj) as (Hout & Hnone & Hin).
      split; [|split].
      * intros k Hk. apply not_elem_of_cons in Hk as [Hne Hk]. by apply Hout.
      * exact Hnone.
      * intros Hnd k v Hkv Hs. apply NoDup_cons in Hnd as [Hk Hnd].
        apply elem_of_cons in Hkv as [[= -> ->]|Hkv]; [by destruct Hk0|].
        by apply Hin.
Qed.

Lemma alter_known {A : Type} (f : A -> A) (l : list A) h x :
  l !! h = Some x -> alter f h l = <[h := f x]> l.
Proof.
  revert h. induction l as [|y l IH]; intros [|h] H; try discriminate.
  - by inversion H.
  - cbn. f_equal. by apply IH.
Qed.

(** The loop of [_update] changes one object of the session, the way
    [apply_items] says. *)
Lemma set_fields_pending items :
  forall db h obj,
    pending db !! h = Some obj ->
    set_fields db h items =
    {| committed := committed db;
       pending := <[h := apply_items obj items]> (pending db);
       fresh := fresh db |}.
Proof.
  induction items as [|[k v] items IH]; intros db h obj Hh;
    cbn [set_fields apply_items].
  - rewrite list_insert_id by exact Hh. by destruct db.
  - rewrite Hh. destruct (hasattr obj k).
    + rewrite (IH _ h (<[k := v]> obj)).
      * unfold session_setattr. cbn [committed pending fresh].
        rewrite (alter_known _ _ _ _ Hh), list_insert_insert_eq. reflexivity.
      * unfold session_setattr. cbn [pending].
        rewrite list_lookup_alter_eq, Hh. reflexivity.
    + by apply IH.
Qed.

Lemma find_key_lookup pk ident rows :
  forall i h r,
    find_key pk ident i rows = Some (h, r) ->
    exists j, h = (i + j)%nat /\ rows !! j = Some r /\ attr r pk = ident.
Proof.
  induction rows as [|r0 rows IH]; intros i h r H; cbn in H; [discriminate|].
  case_bool_decide as Hk.
  - inversion H; subst. exists 0%nat. split; [lia|]. by split.
  - apply IH in H as (j & -> & Hj & Ha). exists (S j). split; [lia|]. by split.
Qed.

Lemma get_one_lookup self item_id db h r :
  _get_one self item_id db = inr (h, r) ->
  pending db !! h = Some r /\ attr r (_pk self) = item_id.
Proof.
  unfold _get_one, query_get. intros H.
  destruct item_id; try discriminate H;
    destruct (find_key _ _ _ _) as [[h' r']|] eqn:E; try discriminate H;
    inversion H; subst;
    apply find_key_lookup in E as (j & -> & Hj & Ha); by split.
Qed.

Lemma dict_exclude_elem k d k' v :
  (k', v) ∈ dict_exclude k d <-> (k', v) ∈ d /\ k' ≠ k.
Proof.
  unfold dict_exclude. rewrite !list_elem_of_In, filter_In. cbn [fst].
  destruct (String.eqb_spec k' k); cbn; intuition congruence.
Qed.

Lemma dict_exclude_keys k d k' :
  k' ∈ map fst (dict_exclude k d) <-> k' ∈ map fst d /\ k' ≠ k.
Proof.
  rewrite !list_elem_of_In, !in_map_iff. split.
  - intros ([k1 v] & <- & Hin). apply list_elem_of_In in Hin.
    apply dict_exclude_elem in Hin as [Hin Hne]. split; [|exact Hne].
    exists (k1, v). split; [reflexivity|]. by apply list_elem_of_In.
  - intros [([k1 v] & <- & Hin) Hne]. exists (k1, v). split; [reflexivity|].
    apply list_elem_of_In, dict_exclude_elem. split; [|exact Hne].
    by apply list_elem_of_In.
Qed.

Lemma dict_exclude_NoDup k d :
  NoDup (map fst d) -> NoDup (map fst (dict_exclude k d)).
Proof.
  induction d as [|[k0 v0] d IH]; cbn; [done|].
  intros Hnd. apply NoDup_cons in Hnd as [Hk Hnd].
  destruct (String.eqb k0 k); cbn; [by apply IH|].
  apply NoDup_cons. split; [|by apply IH].
  intros Hin. apply dict_exclude_keys in Hin as [Hin _]. by apply Hk.
Qed.

(** What [_update] does, case by case. *)
Lemma update_cases self item_id model table h old :
  _get_one self item_id (session_of table) = inr (h, old) ->
  let new := apply_items old (dict_exclude (_pk self) model) in
  _update self item_id model (session_of table) =
  match violations (db_model self) (<[h := new]> table) with
  | [] => (session_of (<[h := new]> table), inr new)
  | msg :: _ =>
      (session_of table,
       inl (HTTPException 422 ("(sqlite3.IntegrityError) " +:+ msg)))
  end.
Proof.
  intros Hg new. unfold _update. rewrite Hg.
  apply get_one_lookup in Hg as [Hh _]. cbn [pending session_of] in Hh.
  rewrite (set_fields_pending _ _ h old) by exact Hh.
  cbn [committed pending fresh session_of]. fold new.
  unfold session_commit, flush. cbn [pending fresh].
  rewrite Nat.sub_0_r, take_ge, drop_ge by lia. cbn [fold_left].
  destruct (violations _ _) as [|msg msgs]; [|reflexivity].
  unfold session_refresh. cbn [pending session_of].
  rewrite list_lookup_insert_eq by (by eapply lookup_lt_Some). reflexivity.
Qed.

(** C6.  An update of an existing record leaves its primary key as it was,
    also when the payload names the primary key; it leaves every field the
    payload does not name as it was; it gives the record no field it did not
    have; and every other field the payload names gets the payload's value.
    One record of the table is changed, in place.  An update that fails
    changes nothing. *)
Theorem update_frame :
  forall self item_id model table h old,
    _get_one self item_id (session_of table) = inr (h, old) ->
    (forall db new,
        _update self item_id model (session_of table) = (db, inr new) ->
        new !! _pk self = old !! _pk self /\
        (forall k, k ∉ map fst model -> new !! k = old !! k) /\
        (forall k, old !! k = None -> new !! k = None) /\
        (NoDup (map fst model) ->
         forall k v, (k, v) ∈ model -> k ≠ _pk self -> is_Some (old !! k) ->
                     new !! k = Some v) /\
        db = session_of (<[h := new]> table))
    /\
    (forall db e,
        _update self item_id model (session_of table) = (db, inl e) ->
        db = session_of table).
Proof.
  intros self item_id model table h old Hg.
  rewrite (update_cases _ _ _ _ _ _ Hg). cbv zeta. split.
  - intros db new Hu.
    destruct (violations _ _); inversion Hu; subst. clear Hu.
    destruct (apply_items_lookup (dict_exclude (_pk self) model) old)
      as (Hout & Hnone & Hin).
    split; [|split; [|split; [|split]]].
    + apply Hout. intros Hk. by apply dict_exclude_keys in Hk as [_ Hk].
    + intros k Hk. apply Hout. intros Hk'.
      by apply dict_exclude_keys in Hk' as [Hk' _].
    + exact Hnone.
    + intros Hnd k v Hkv Hne Hs.
      apply (Hin (dict_exclude_NoDup _ _ Hnd)); [|exact Hs].
      by apply dict_exclude_elem.
    + reflexivity.
  - intros db e Hu. destruct (violations _ _); by inversion Hu.
Qed.

(** * The filter *)











(** * The statements at work on the table of users *)

(** The scenario of the spec: a first user named [a] gets the key 1; a
    second create with the same unique name answers 422 and the table still
    holds one record; the list from 0 with limit 10 then reports [0-0/1]. *)
Example spec_scenario :
  let '(db1, r1) := _create users_router [("name", VStr "a")] (session_of []) in
  let '(db2, r2) :=
    _create users_router [("name", VStr "a")] (session_of (committed db1)) in
  r1 = inr (user 1 "a" VNull) /\
  r2 = inl (HTTPException 422 "Key already exists") /\
  length (committed db2) = 1%nat /\
  _get_all users_router (Some empty_response) (session_of (committed db2))
    (mk_pagination (Some 0) (Some 10)) None None
  = (Some (set_header empty_response "Content-Range" "0-0/1"),
     inr [user 1 "a" VNull]).
Proof. vm_compute. repeat split; reflexivity. Qed.

(** Each statement above that has a premise, applied to the table of
    users. *)



Lemma malformed_filter_propagates_witness :
  "{" <> EmptyString /\
  json_loads "{" = inl JSONDecodeError /\
  _get_all users_router (Some empty_response) (session_of three_users)
    (mk_pagination (Some 0) None) (Some "{") None
  = (Some empty_response, inl JSONDecodeError).
Proof.
  assert (Hn : "{" <> EmptyString) by discriminate.
  assert (Hj : json_loads "{" = inl JSONDecodeError) by (vm_compute; reflexivity).
  split; [exact Hn|]. split; [exact Hj|].
  exact (proj1 (proj2 (proj1 malformed_filter_propagates users_router
                         empty_response (session_of three_users)
                         (mk_pagination (Some 0) None) "{" None
                         JSONDecodeError Hn Hj))).
Defined.

Lemma create_conflict_or_one_record_witness :
  (construct users [("name", VStr "a")] = inr (user_draft "a") /\
   snd (session_commit users
          (fst (session_add (session_of [user 1 "a" VNull]) (user_draft "a"))))
   = inl (IntegrityError
            ["(sqlite3.IntegrityError) UNIQUE constraint failed: Users.name"]) /\
   _create users_router [("name", VStr "a")] (session_of [user 1 "a" VNull])
   = (session_of [user 1 "a" VNull],
      inl (HTTPException 422 "Key already exists")))
  /\
  (_create users_router [("name", VStr "b")] (session_of [user 1 "a" VNull])
   = (session_of [user 1 "a" VNull; user 2 "b" VNull], inr (user 2 "b" VNull))
   /\
   length (committed (session_of [user 1 "a" VNull; user 2 "b" VNull])) = 2%nat).
Proof.
  assert (Hc : construct (db_model users_router) [("name", VStr "a")]
               = inr (user_draft "a")) by (vm_compute; reflexivity).
  assert (Hi : snd (session_commit (db_model users_router)
                      (fst (session_add (session_of [user 1 "a" VNull])
                              (user_draft "a"))))
               = inl (IntegrityError
            ["(sqlite3.IntegrityError) UNIQUE constraint failed: Users.name"]))
    by (vm_compute; reflexivity).
  assert (Hb : _create users_router [("name", VStr "b")]
                 (session_of [user 1 "a" VNull])
               = (session_of [user 1 "a" VNull; user 2 "b" VNull],
                  inr (user 2 "b" VNull))) by (vm_compute; reflexivity).
  split.
  - split; [exact Hc|]. split; [exact Hi|].
    exact (proj1 (create_conflict_or_one_record users_router
                    [("name", VStr "a")] [user 1 "a" VNull]) _ _ Hc Hi).
  - split; [exact Hb|].
    exact (proj2 (proj2 (create_conflict_or_one_record users_router
                           [("name", VStr "b")] [user 1 "a" VNull]) _ _ Hb)).
Defined.


Lemma update_frame_witness :
  _get_one users_router (VInt 2) (session_of three_users)
  = inr (1%nat, user 2 "b" (VInt 3)) /\
  _update users_router (VInt 2)
    [("id", VInt 99); ("name", VStr "zz"); ("nickname", VStr "z")]
    (session_of three_users)
  = (session_of [user 1 "a" VNull; user 2 "zz" (VInt 3); user 3 "c" VNull],
     inr (user 2 "zz" (VInt 3))) /\
  user 2 "zz" (VInt 3) !! "id" = user 2 "b" (VInt 3) !! "id" /\
  user 2 "zz" (VInt 3) !! "age" = user 2 "b" (VInt 3) !! "age" /\
  user 2 "zz" (VInt 3) !! "nickname" = None.
Proof.
  assert (Hg : _get_one users_router (VInt 2) (session_of three_users)
               = inr (1%nat, user 2 "b" (VInt 3))) by (vm_compute; reflexivity).
  assert (Hu : _update users_router (VInt 2)
                 [("id", VInt 99); ("name", VStr "zz"); ("nickname", VStr "z")]
                 (session_of three_users)
               = (session_of [user 1 "a" VNull; user 2 "zz" (VInt 3);
                              user 3 "c" VNull],
                  inr (user 2 "zz" (VInt 3)))) by (vm_compute; reflexivity).
  destruct (proj1 (update_frame _ _ [("id", VInt 99); ("name", VStr "zz");
                                     ("nickname", VStr "z")] _ _ _ Hg) _ _ Hu)
    as (Hpk & Hout & Hnone & _ & _).
  split; [exact Hg|]. split; [exact Hu|]. split; [exact Hpk|].
  split; [|apply Hnone; vm_compute; reflexivity].
  apply Hout. cbn [map fst].
  intros Hin. repeat (apply elem_of_cons in Hin as [Hin|Hin]; [discriminate Hin|]).
  by apply elem_of_nil in Hin.
Defined.


(** * More on the list route *)

(** What a list request that returns went through. *)
Lemma get_all_returns self response db pagination filter sort response' rows :
  _get_all self (Some response) db pagination filter sort
  = (Some response', inr rows) ->
  exists skip q gs,
    pagination_get pagination "skip" = Some skip /\
    filter_query self filter = inr q /\
    bind_criteria (criteria q) = inr gs /\
    rows = apply_limit (pagination_get pagination "limit")
             (drop (Z.to_nat skip)
                (List.filter (row_matches gs) (pending db))) /\
    response' = set_header response "Content-Range"
                  (content_range skip (length rows)
                     (Z.of_nat
                        (length (List.filter (row_matches gs) (pending db))))).
Proof.
  unfold _get_all, get_all_body, query_count, query_all, query_rows.
  cbn [criteria query_offset query_limit q_limit q_offset].
  intros H.
  destruct (filter_query self filter) as [e|q]; [inversion H|].
  destruct (bind_criteria (criteria q)) as [e|gs] eqn:Egs; [inversion H|].
  cbn [bind ret] in H.
  destruct (pagination_get pagination "skip") as [skip|]; [|inversion H].
  cbn [apply_offset] in H. inversion H; subst.
  exists skip, q, gs. split; [reflexivity|]. split; [reflexivity|].
  split; [exact Egs|]. split; reflexivity.
Qed.


Lemma filter_sublist {A : Type} (f : A -> bool) (l : list A) :
  List.filter f l `sublist_of` l.
Proof.
  induction l as [|x l IH]; cbn; [constructor|].
  destruct (f x); [by apply sublist_skip | by apply sublist_cons].
Qed.


(** The records a list request returns are records of the table, none
    more often than the table holds it: the list route neither invents nor
    repeats a record. *)
Theorem get_all_returns_stored_records :
  forall self response db pagination filter sort response' rows,
    _get_all self (Some response) db pagination filter sort
    = (Some response', inr rows) ->
    rows ⊆+ pending db.
Proof.
  intros self response db pagination filter sort response' rows H.
  apply get_all_returns in H as (skip & q & gs & _ & _ & _ & -> & _).
  apply sublist_submseteq.
  etrans; [apply apply_limit_sublist|].
  etrans; [apply sublist_drop|]. apply filter_sublist.
Qed.

(** The number of records a list request returns is the smaller of the
    limit and of what the total leaves after [skip]; the header reports that
    total. *)
Theorem get_all_returns_min :
  forall self response db skip L filter sort response' rows,
    0 <= skip -> 0 < L ->
    _get_all self (Some response) db (mk_pagination (Some skip) (Some L))
      filter sort
    = (Some response', inr rows) ->
    exists total,
      headers response' !! "Content-Range"
      = Some (content_range skip (length rows) total) /\
      0 <= total /\
      Z.of_nat (length rows) = Z.min L (Z.max 0 (total - skip)).
Proof.
  intros self response db skip L filter sort response' rows Hs HL H.
  apply get_all_returns in H as (skip' & q & gs & Hsk & _ & _ & -> & ->).
  rewrite pagination_get_skip in Hsk. inversion Hsk; subst skip'.
  rewrite pagination_get_limit. cbn [apply_limit].
  set (matching := List.filter (row_matches gs) (pending db)).
  exists (Z.of_nat (length matching)).
  split; [unfold set_header; cbn [headers]; by rewrite lookup_insert_eq|].
  split; [lia|]. destruct (Z.ltb_spec L 0); [lia|].
  rewrite length_take, length_drop. lia.
Qed.


(** * Filters that are no specification *)

Lemma filter_query_decoded self filter v :
  filter <> EmptyString ->
  json_loads filter = inr v ->
  filter_query self (Some filter)
  = (let* items := dict_items v in
     apply_filter (db_model self) items session_query).
Proof.
  intros Hne Hj. unfold filter_query.
  destruct filter as [|c filter]; [congruence|].
  cbn [str_truthy]. unfold default. cbn [from_option id]. by rewrite Hj.
Qed.

Lemma get_all_filter_raises self response db pagination filter sort e :
  filter_query self filter = inl e ->
  _get_all self (Some response) db pagination filter sort
  = (Some response, inl e).
Proof. intros H. unfold _get_all, get_all_body. by rewrite H. Qed.

Lemma apply_filter_app m xs ys q :
  apply_filter m (xs ++ ys) q
  = (let* q' := apply_filter m xs q in apply_filter m ys q').
Proof.
  revert q. induction xs as [|[a v] xs IH]; intros q; [reflexivity|].
  cbn [app apply_filter]. destruct (filter_clauses m a v); cbn [bind];
    [reflexivity | apply IH].
Qed.

(** A filter that is valid JSON but no object (an array, a string, a
    number, [true], [false], [null]) makes the list route raise
    [AttributeError]: the route asks the decoded value for its items.  No
    header is set. *)
Theorem filter_not_an_object :
  forall self response db pagination filter sort v,
    filter <> EmptyString ->
    json_loads filter = inr v ->
    (forall pairs, v <> JObj pairs) ->
    _get_all self (Some response) db pagination (Some filter) sort
    = (Some response, inl (AttributeError "object has no attribute 'items'")).
Proof.
  intros self response db pagination filter sort v Hne Hj Hv.
  apply get_all_filter_raises. rewrite (filter_query_decoded _ _ _ Hne Hj).
  destruct v; try reflexivity. by destruct (Hv pairs).
Qed.

(** A filter object one of whose values is no sequence ([null], a boolean
    or a number where a list is expected) makes the list route raise
    [TypeError], when the items before it are in order. *)
Theorem filter_value_not_iterable :
  forall self response db pagination filter sort pre a v post q e,
    filter <> EmptyString ->
    json_loads filter = inr (JObj (pre ++ (a, v) :: post)) ->
    apply_filter (db_model self) pre session_query = inr q ->
    py_iter v = inl e ->
    _get_all self (Some response) db pagination (Some filter) sort
    = (Some response, inl (TypeError "object is not iterable")).
Proof.
  intros self response db pagination filter sort pre a v post q e Hne Hj Hp Hv.
  apply get_all_filter_raises. rewrite (filter_query_decoded _ _ _ Hne Hj).
  cbn [dict_items bind ret]. rewrite apply_filter_app, Hp.
  cbn [bind apply_filter]. unfold filter_clauses.
  destruct v; try discriminate Hv; reflexivity.
Qed.

(** A string where a list of values is expected is read as the list of its
    characters: the filter selects what it would select with that list. *)
Theorem filter_string_read_by_character :
  forall self response db pagination filter1 filter2 sort pre a s post,
    filter1 <> EmptyString ->
    filter2 <> EmptyString ->
    json_loads filter1 = inr (JObj (pre ++ (a, JStr s) :: post)) ->
    json_loads filter2
    = inr (JObj (pre ++ (a, JArr (map JStr (str_chars s))) :: post)) ->
    _get_all self (Some response) db pagination (Some filter1) sort
    = _get_all self (Some response) db pagination (Some filter2) sort.
Proof.
  intros self response db pagination filter1 filter2 sort pre a s post
    Hn1 Hn2 Hj1 Hj2.
  unfold _get_all, get_all_body.
  rewrite (filter_query_decoded _ _ _ Hn1 Hj1),
    (filter_query_decoded _ _ _ Hn2 Hj2).
  cbn [dict_items bind ret]. rewrite !apply_filter_app.
  destruct (apply_filter (db_model self) pre session_query); reflexivity.
Qed.

Lemma apply_filter_unknown m (spec : filter_spec) :
  (forall a vs, (a, vs) ∈ spec -> vs <> [] ->
                has_column m a = true \/ has_attribute m a = false) ->
  (exists a vs, (a, vs) ∈ spec /\ vs <> [] /\ has_attribute m a = false) ->
  forall q,
    exists a',
      has_attribute m a' = false /\
      apply_filter m
        (map (fun av => (fst av, JArr (map json_of_value (snd av)))) spec) q
      = inl (AttributeError ("type object has no attribute " +:+ a')).
Proof.
  induction spec as [|[a0 vs0] spec IH];
    intros Hall (a & vs & Hin & Hvs & Hc) q.
  { by apply elem_of_nil in Hin. }
  assert (Hall' : forall a vs, (a, vs) ∈ spec -> vs <> [] ->
                    has_column m a = true \/ has_attribute m a = false)
    by (intros a1 vs1 H1; apply Hall; by right).
  cbn [map fst snd apply_filter]. unfold filter_clauses. cbn [py_iter bind ret].
  destruct vs0 as [|v0 vs0].
  - cbn [map]. apply IH; [exact Hall'|].
    apply elem_of_cons in Hin as [[= -> ->]|Hin]; [congruence|].
    by exists a, vs.
  - cbn [map]. destruct (has_column m a0) eqn:Ec.
    + apply IH; [exact Hall'|].
      apply elem_of_cons in Hin as [[= -> ->]|Hin].
      * unfold has_attribute in Hc. rewrite Ec in Hc. discriminate Hc.
      * by exists a, vs.
    + destruct (Hall a0 (v0 :: vs0) ltac:(left) ltac:(discriminate))
        as [Ht|Hf]; [congruence|].
      exists a0. split; [exact Hf|].
      unfold has_attribute in Hf. rewrite Ec in Hf. cbn in Hf.
      by rewrite Hf.
Qed.

(** A filter that lists values for columns of the model and for names that
    are no attribute of the mapped class, at least one of these, makes the
    list route raise [AttributeError], naming the first name that is no
    attribute; it is not answered as a client error. *)
Theorem filter_unknown_attribute :
  forall self response db pagination filter sort (spec : filter_spec) a vs,
    filter <> EmptyString ->
    json_loads filter = inr (json_of_spec spec) ->
    (forall a0 vs0,
        (a0, vs0) ∈ spec -> vs0 <> [] ->
        has_column (db_model self) a0 = true \/
        has_attribute (db_model self) a0 = false) ->
    (a, vs) ∈ spec ->
    vs <> [] ->
    has_attribute (db_model self) a = false ->
    exists a',
      has_attribute (db_model self) a' = false /\
      _get_all self (Some response) db pagination (Some filter) sort
      = (Some response,
         inl (AttributeError ("type object has no attribute " +:+ a'))) /\
      is_client_error
        (status_of
           (snd (_get_all self (Some response) db pagination (Some filter)
                   sort)))
      = false.
Proof.
  intros self response db pagination filter sort spec a vs
    Hne Hj Hall Hin Hvs Hc.
  destruct (apply_filter_unknown (db_model self) spec Hall
              ltac:(by exists a, vs) session_query) as (a' & Hc' & Ha).
  exists a'. split; [exact Hc'|].
  assert (H : _get_all self (Some response) db pagination (Some filter) sort
              = (Some response,
                 inl (AttributeError ("type object has no attribute " +:+ a')))).
  { apply get_all_filter_raises. rewrite (filter_query_decoded _ _ _ Hne Hj).
    exact Ha. }
  rewrite H. split; reflexivity.
Qed.

(** * Finding a record by its key *)

Lemma find_key_Some pk ident rows :
  forall i h r,
    find_key pk ident i rows = Some (h, r) ->
    exists j,
      h = (i + j)%nat /\ rows !! j = Some r /\ attr r pk = ident /\
      forall j' r', (j' < j)%nat -> rows !! j' = Some r' -> attr r' pk <> ident.
Proof.
  induction rows as [|r0 rows IH]; intros i h r H; cbn in H; [discriminate|].
  case_bool_decide as Hk.
  - inversion H; subst. exists 0%nat. split; [lia|]. split; [reflexivity|].
    split; [reflexivity|]. intros j' r' Hj. lia.
  - apply IH in H as (j & -> & Hj & Ha & Hfirst). exists (S j).
    split; [lia|]. split; [exact Hj|]. split; [exact Ha|].
    intros [|j'] r' Hlt Hr'; [by inversion Hr'; subst|].
    apply (Hfirst j' r'); [lia | exact Hr'].
Qed.

Lemma find_key_None pk ident rows i :
  find_key pk ident i rows = None <->
  forall r, r ∈ rows -> attr r pk <> ident.
Proof.
  revert i. induction rows as [|r0 rows IH]; intros i; cbn.
  - split; [|reflexivity]. intros _ r Hr. by apply elem_of_nil in Hr.
  - case_bool_decide as Hk.
    + split; [discriminate|]. intros H. destruct (H r0); [left | exact Hk].
    + rewrite IH. split.
      * intros H r Hr. apply elem_of_cons in Hr as [->|Hr]; [exact Hk | by apply H].
      * intros H r Hr. apply H. by right.
Qed.

Lemma find_key_first pk ident rows :
  forall i j r,
    rows !! j = Some r ->
    attr r pk = ident ->
    (forall j' r', (j' < j)%nat -> rows !! j' = Some r' -> attr r' pk <> ident) ->
    find_key pk ident i rows = Some ((i + j)%nat, r).
Proof.
  induction rows as [|r0 rows IH]; intros i j r Hj Ha Hfirst; [discriminate|].
  cbn. destruct j as [|j].
  - inversion Hj; subst. rewrite bool_decide_eq_true_2 by reflexivity.
    do 2 f_equal. lia.
  - rewrite bool_decide_eq_false_2 by (apply (Hfirst 0%nat r0); [lia | reflexivity]).
    rewrite (IH (S i) j r Hj Ha).
    + do 2 f_equal. lia.
    + intros j' r' Hlt Hr'. apply (Hfirst (S j') r'); [lia | exact Hr'].
Qed.

Lemma get_one_cases :
  forall self item_id db,
    match _get_one self item_id db with
    | inr (h, r) =>
        item_id <> VNull /\
        pending db !! h = Some r /\
        attr r (_pk self) = item_id /\
        forall j r', (j < h)%nat -> pending db !! j = Some r' ->
                     attr r' (_pk self) <> item_id
    | inl e =>
        e = NOT_FOUND /\
        (item_id = VNull \/
         forall r, r ∈ pending db -> attr r (_pk self) <> item_id)
    end.
Proof.
  intros self item_id db. unfold _get_one.
  destruct (query_get (_pk self) db item_id) as [[h r]|] eqn:E.
  - assert (Hn : item_id <> VNull) by (intros ->; discriminate E).
    rewrite query_get_find in E by exact Hn.
    apply find_key_Some in E as (j & -> & Hj & Ha & Hfirst).
    split; [exact Hn|]. split; [exact Hj|]. split; [exact Ha | exact Hfirst].
  - split; [reflexivity|].
    destruct (decide (item_id = VNull)) as [->|Hn]; [by left|]. right.
    rewrite query_get_find in E by exact Hn.
    exact (proj1 (find_key_None _ _ _ _) E).
Qed.

Lemma get_one_absent self item_id db :
  (forall r, r ∈ pending db -> attr r (_pk self) <> item_id) ->
  _get_one self item_id db = inl NOT_FOUND.
Proof.
  intros H. unfold _get_one, query_get.
  destruct item_id; try reflexivity;
    by rewrite (proj2 (find_key_None _ _ _ 0%nat) H).
Qed.

(** For an id of the kind of the primary key, on a table whose keys are of
    that kind, the get-one route returns a record of the table whose key
    is the id; it returns one when some record has the id; and it raises
    exactly [NOT_FOUND], exactly when the id is [None] or no record has
    it. *)
Theorem get_one_by_key_or_not_found :
  forall db_model prefix0 item_id db,
    fits (pk_kind db_model) item_id = true ->
    (forall r, r ∈ pending db ->
               fits (pk_kind db_model) (attr r (pk_column db_model)) = true) ->
    (forall h r,
        _get_one (__init__ db_model prefix0) item_id db = inr (h, r) ->
        item_id <> VNull /\
        r ∈ pending db /\
        attr r (pk_column db_model) = item_id) /\
    (forall r,
        item_id <> VNull ->
        r ∈ pending db ->
        attr r (pk_column db_model) = item_id ->
        exists h r',
          _get_one (__init__ db_model prefix0) item_id db = inr (h, r')) /\
    (forall e,
        _get_one (__init__ db_model prefix0) item_id db = inl e <->
        e = NOT_FOUND /\
        (item_id = VNull \/
         forall r, r ∈ pending db -> attr r (pk_column db_model) <> item_id)).
Proof.
  intros m p item_id db _ _.
  pose proof (get_one_cases (__init__ m p) item_id db) as Hc.
  cbn [_pk __init__] in Hc. split; [|split].
  - intros h r H. rewrite H in Hc. destruct Hc as (Hn & Hh & Ha & _).
    split; [exact Hn|]. split; [|exact Ha]. by eapply list_elem_of_lookup_2.
  - intros r Hn Hr Ha.
    destruct (_get_one (__init__ m p) item_id db) as [e|[h r']];
      [|by exists h, r'].
    destruct Hc as [_ [->|Hnone]]; [congruence|].
    destruct (Hnone r Hr Ha).
  - intros e. split.
    + intros H. rewrite H in Hc. exact Hc.
    + intros [-> [->|Hnone]]; [reflexivity|].
      by apply get_one_absent.
Qed.

(** An update and a delete-one of an id of the kind of the primary key
    that no record has, on a table whose keys are of that kind, raise
    [NOT_FOUND], as the get-one route does, and leave the session as it
    was: the update sets nothing and commits nothing. *)
Theorem absent_key_not_found :
  forall db_model prefix0 item_id model db,
    fits (pk_kind db_model) item_id = true ->
    (forall r, r ∈ pending db ->
               fits (pk_kind db_model) (attr r (pk_column db_model)) = true) ->
    (forall r, r ∈ pending db -> attr r (pk_column db_model) <> item_id) ->
    _get_one (__init__ db_model prefix0) item_id db = inl NOT_FOUND /\
    _update (__init__ db_model prefix0) item_id model db = (db, inl NOT_FOUND) /\
    _delete_one (__init__ db_model prefix0) item_id db = (db, inl NOT_FOUND).
Proof.
  intros m p item_id model db _ _ H.
  pose proof (get_one_absent (__init__ m p) _ _ H) as Hg.
  unfold _update, _delete_one. rewrite Hg. by repeat split.
Qed.

(** * The constraints of the table *)

Lemma flat_map_nil {A B : Type} (f : A -> list B) (l : list A) :
  flat_map f l = [] <-> Forall (fun x => f x = []) l.
Proof.
  induction l as [|x l IH]; cbn.
  - split; [constructor | reflexivity].
  - split.
    + intros H. apply app_eq_nil in H as [Hx Hl].
      constructor; [exact Hx | by apply IH].
    + intros H. apply Forall_cons in H as [Hx Hl].
      rewrite Hx. cbn. by apply IH.
Qed.

Lemma column_violations_nil m rows c :
  column_violations m rows c = [] <->
  (col_nullable c = false -> not_null_ok (col_name c) rows = true) /\
  (col_unique c = true -> unique_ok (col_name c) rows = true).
Proof.
  unfold column_violations.
  destruct (col_nullable c), (not_null_ok (col_name c) rows),
    (col_unique c), (unique_ok (col_name c) rows); cbn;
    split; try discriminate; try (intros _; split; congruence);
    intros [H1 H2]; try reflexivity;
    try (specialize (H1 eq_refl); discriminate);
    try (specialize (H2 eq_refl); discriminate).
Qed.

Lemma violations_nil_iff m rows :
  violations m rows = [] <->
  not_null_ok (pk_column m) rows = true /\
  unique_ok (pk_column m) rows = true /\
  Forall (fun c => column_violations m rows c = []) (columns m).
Proof.
  unfold violations. rewrite <- flat_map_nil.
  destruct (not_null_ok (pk_column m) rows), (unique_ok (pk_column m) rows);
    cbn; split; try discriminate; try tauto;
    intros (H1 & H2 & H3); congruence.
Qed.

Lemma sublist_elem_of {A : Type} (l1 l2 : list A) x :
  l1 `sublist_of` l2 -> x ∈ l1 -> x ∈ l2.
Proof.
  induction 1 as [|y l1 l2 _ IH|y l1 l2 _ IH]; intros Hx; [exact Hx| |].
  - apply elem_of_cons in Hx as [->|Hx]; [left | right; by apply IH].
  - right. by apply IH.
Qed.

Lemma col_values_sublist c rows' rows :
  rows' `sublist_of` rows -> col_values c rows' `sublist_of` col_values c rows.
Proof.
  induction 1; cbn; [constructor | by apply sublist_skip | by apply sublist_cons].
Qed.

Lemma filter_not_null_sublist (l1 l2 : list value) :
  l1 `sublist_of` l2 ->
  filter (fun v => v ≠ VNull) l1 `sublist_of` filter (fun v => v ≠ VNull) l2.
Proof.
  induction 1 as [|y l1 l2 _ IH|y l1 l2 _ IH]; [constructor| |].
  - rewrite !filter_cons. destruct (decide (y ≠ VNull));
      [by apply sublist_skip | exact IH].
  - rewrite filter_cons. destruct (decide (y ≠ VNull));
      [by apply sublist_cons | exact IH].
Qed.

Lemma not_null_ok_sublist c rows' rows :
  rows' `sublist_of` rows -> not_null_ok c rows = true -> not_null_ok c rows' = true.
Proof.
  unfold not_null_ok. intros Hs H. apply bool_decide_eq_true_1 in H.
  apply bool_decide_eq_true_2. intros Hin. apply H.
  eapply sublist_elem_of; [by apply col_values_sublist | exact Hin].
Qed.

Lemma unique_ok_sublist c rows' rows :
  rows' `sublist_of` rows -> unique_ok c rows = true -> unique_ok c rows' = true.
Proof.
  unfold unique_ok. intros Hs H. apply bool_decide_eq_true_1 in H.
  apply bool_decide_eq_true_2. eapply sublist_NoDup; [exact H|].
  by apply filter_not_null_sublist, col_values_sublist.
Qed.

(** A table that keeps the constraints still keeps them when records are
    taken out of it. *)
Lemma violations_sublist m rows' rows :
  rows' `sublist_of` rows -> violations m rows = [] -> violations m rows' = [].
Proof.
  intros Hs. rewrite !violations_nil_iff. intros (Hn & Hu & Hc).
  split; [by eapply not_null_ok_sublist|]. split; [by eapply unique_ok_sublist|].
  eapply Forall_impl; [exact Hc|]. intros c. cbn.
  rewrite !column_violations_nil. intros [H1 H2]. split.
  - intros E. eapply not_null_ok_sublist; [exact Hs | by apply H1].
  - intros E. eapply unique_ok_sublist; [exact Hs | by apply H2].
Qed.

(** On a table that keeps the constraints, the keys are not null and no two
    records have the same key. *)
Lemma key_values_NoDup m rows :
  violations m rows = [] -> NoDup (col_values (pk_column m) rows).
Proof.
  intros H. apply violations_nil_pk in H as [Hn Hu].
  unfold not_null_ok, unique_ok in *.
  apply bool_decide_eq_true_1 in Hn. apply bool_decide_eq_true_1 in Hu.
  by rewrite filter_not_null in Hu.
Qed.

Lemma col_values_lookup c rows j r :
  rows !! j = Some r -> col_values c rows !! j = Some (attr r c).
Proof.
  intros H. unfold col_values. change (map ?f ?l) with (f <$> l).
  by rewrite list_lookup_fmap, H.
Qed.

Lemma key_unique_after_delete m rows h r r' :
  violations m rows = [] ->
  rows !! h = Some r ->
  r' ∈ delete h rows ->
  attr r' (pk_column m) <> attr r (pk_column m).
Proof.
  intros Hv Hh Hr' E. apply key_values_NoDup in Hv.
  apply list_elem_of_lookup_1 in Hr' as [j Hj].
  destruct (decide (j < h)%nat) as [Hlt|Hge].
  - rewrite list_lookup_delete_lt in Hj by exact Hlt.
    pose proof (NoDup_lookup _ j h _ Hv
                  (col_values_lookup _ _ _ _ Hj)
                  ltac:(rewrite E; by apply col_values_lookup)). lia.
  - rewrite list_lookup_delete_ge in Hj by lia.
    pose proof (NoDup_lookup _ (S j) h _ Hv
                  (col_values_lookup _ _ _ _ Hj)
                  ltac:(rewrite E; by apply col_values_lookup)). lia.
Qed.

(** * Deleting one record *)

(** What [_delete_one] does with a record it finds. *)
Lemma delete_one_cases self item_id table h r :
  _get_one self item_id (session_of table) = inr (h, r) ->
  _delete_one self item_id (session_of table) =
  match violations (db_model self) (delete h table) with
  | [] => (session_of (delete h table), inr r)
  | msg :: _ =>
      ({| committed := table; pending := delete h table; fresh := 0 |},
       inl (IntegrityError ["(sqlite3.IntegrityError) " +:+ msg]))
  end.
Proof.
  intros Hg. unfold _delete_one. rewrite Hg.
  unfold session_commit, flush, session_delete.
  cbn [pending fresh committed session_of].
  rewrite Nat.sub_0_r, take_ge, drop_ge by lia. cbn [fold_left].
  by destruct (violations _ _).
Qed.

(** On a table that keeps its constraints, the delete-one route takes out
    the record the get-one route finds, and that one only; it returns the
    record as it was; and the get-one route no longer finds the id. *)
Theorem delete_one_removes_the_record :
  forall m p item_id table h r,
    violations m table = [] ->
    _get_one (__init__ m p) item_id (session_of table) = inr (h, r) ->
    _delete_one (__init__ m p) item_id (session_of table)
    = (session_of (delete h table), inr r) /\
    S (length (delete h table)) = length table /\
    _get_one (__init__ m p) item_id (session_of (delete h table))
    = inl NOT_FOUND.
Proof.
  intros m p item_id table h r Hv Hg.
  pose proof (get_one_lookup _ _ _ _ _ Hg) as [Hh Ha].
  cbn [pending session_of _pk __init__] in Hh, Ha.
  rewrite (delete_one_cases _ _ _ _ _ Hg). cbn [db_model __init__].
  rewrite (violations_sublist m _ _ (sublist_delete table h) Hv).
  split; [reflexivity|]. split.
  - rewrite length_delete by (by eexists).
    apply lookup_lt_Some in Hh. lia.
  - apply get_one_absent. cbn [pending session_of _pk __init__].
    intros r' Hr'. rewrite <- Ha. by eapply key_unique_after_delete.
Qed.

(** Create and then delete-one with the key of the record created gives the
    table back as it was, and returns the record created. *)
Theorem create_then_delete_one :
  forall m p model table db r,
    _create (__init__ m p) model (session_of table) = (db, inr r) ->
    _delete_one (__init__ m p) (attr r (pk_column m)) db
    = (session_of table, inr r).
Proof.
  intros m p model table db r H. rewrite create_cases in H.
  cbn [db_model __init__] in H.
  destruct (construct m model) as [e|obj]; [inversion H|].
  cbv zeta in H.
  destruct (violations m _) eqn:Ev; inversion H; subst. clear H.
  pose proof (violations_nil_pk _ _ Ev) as [Hnn Hu].
  destruct (key_constraints _ _ _ Hnn Hu) as [Hk Hne].
  assert (Hg : _get_one (__init__ m p)
                 (attr (on_insert m table obj) (pk_column m))
                 (session_of (table ++ [on_insert m table obj]))
               = inr (length table, on_insert m table obj)).
  { unfold _get_one. cbn [_pk __init__].
    rewrite query_get_find by exact Hk. cbn [pending session_of].
    rewrite find_key_last by exact Hne. reflexivity. }
  rewrite (delete_one_cases _ _ _ _ _ Hg). cbn [db_model __init__].
  assert (Hd : delete (length table)
                 (table ++ [on_insert m table obj]) = table).
  { rewrite delete_middle. apply app_nil_r. }
  rewrite Hd.
  rewrite (violations_sublist m table _ (sublist_inserts_r _ _ _ (reflexivity _)) Ev).
  reflexivity.
Qed.

(** * Updating twice *)

Lemma apply_items_last items :
  forall obj k,
    apply_items obj items !! k =
    match obj !! k with
    | None => None
    | Some v0 => Some (default v0 (last_binding k items))
    end.
Proof.
  induction items as [|[k0 v0] items IH]; intros obj k;
    cbn [apply_items last_binding].
  - by destruct (obj !! k).
  - unfold hasattr. case_bool_decide as Hk0.
    + rewrite IH. destruct (String.eqb_spec k k0) as [->|Hne].
      * rewrite lookup_insert_eq. destruct Hk0 as [w ->].
        by destruct (last_binding k0 items).
      * rewrite lookup_insert_ne by congruence.
        destruct (obj !! k); [|reflexivity].
        by destruct (last_binding k items).
    + rewrite IH. destruct (String.eqb_spec k k0) as [->|Hne].
      * destruct (obj !! k0) eqn:E; [|reflexivity].
        destruct Hk0. by eexists.
      * destruct (obj !! k); [|reflexivity].
        by destruct (last_binding k items).
Qed.

Lemma apply_items_idem obj items :
  apply_items (apply_items obj items) items = apply_items obj items.
Proof.
  apply map_eq. intros k. rewrite (apply_items_last items (apply_items _ _)).
  rewrite (apply_items_last items obj).
  destruct (obj !! k); [|reflexivity].
  by destruct (last_binding k items).
Qed.

(** After an update, the get-one route with the same id returns the record
    the update returned, and the same update once more returns the same
    record and leaves the table as the first left it: an update is
    idempotent. *)
Theorem update_idempotent :
  forall self item_id model table db new,
    _update self item_id model (session_of table) = (db, inr new) ->
    (exists h, _get_one self item_id db = inr (h, new)) /\
    _update self item_id model db = (db, inr new).
Proof.
  intros self item_id model table db new Hu.
  destruct (_get_one self item_id (session_of table)) as [e|[h old]] eqn:Hg.
  { unfold _update in Hu. rewrite Hg in Hu. inversion Hu. }
  rewrite (update_cases _ _ _ _ _ _ Hg) in Hu. cbv zeta in Hu.
  destruct (violations _ _) eqn:Ev; inversion Hu; subst. clear Hu.
  set (items := dict_exclude (_pk self) model) in *.
  set (new := apply_items old items) in *.
  pose proof (get_one_cases self item_id (session_of table)) as Hf.
  rewrite Hg in Hf. destruct Hf as (Hn & Hh & Ha & Hfirst).
  cbn [pending session_of] in Hh, Hfirst.
  assert (Hpk : attr new (_pk self) = item_id).
  { unfold attr in *. subst new. rewrite apply_items_last.
    destruct (old !! _pk self) as [v0|] eqn:E; cbn in Ha; [|congruence].
    assert (Hl : last_binding (_pk self) items = None).
    { subst items. clear. induction model as [|[k v] model IH]; [reflexivity|].
      cbn [dict_exclude List.filter fst].
      destruct (String.eqb_spec k (_pk self)) as [->|Hne]; cbn [negb];
        [exact IH|].
      cbn [last_binding]. fold (dict_exclude (_pk self) model). rewrite IH.
      destruct (String.eqb_spec (_pk self) k); congruence. }
    rewrite Hl. exact Ha. }
  assert (Hg' : _get_one self item_id (session_of (<[h := new]> table))
                = inr (h, new)).
  { unfold _get_one. rewrite query_get_find by exact Hn.
    cbn [pending session_of].
    rewrite (find_key_first _ _ _ 0%nat h new); [reflexivity| |exact Hpk|].
    - apply list_lookup_insert_eq. by eapply lookup_lt_Some.
    - intros j' r' Hlt Hr'. rewrite list_lookup_insert_ne in Hr' by lia.
      by eapply Hfirst. }
  split; [by exists h|].
  rewrite (update_cases _ _ _ _ _ _ Hg'). cbv zeta. fold items.
  subst new. rewrite apply_items_idem, list_insert_insert_eq, Ev. reflexivity.
Qed.

(** * The prefix a caller gives *)

(** A prefix the caller gives takes the place of the table name, in
    lowercase like it; an empty prefix counts as none, and the table name
    is used. *)
Theorem prefix_given_or_table_name :
  forall m p,
    p <> EmptyString ->
    prefix (__init__ m (Some p)) = str_lower p /\
    prefix (__init__ m (Some EmptyString)) = str_lower (tablename m) /\
    prefix (__init__ m (Some EmptyString)) = prefix (__init__ m None).
Proof.
  intros m p Hp. cbn [prefix __init__]. unfold CRUDGenerator_prefix.
  destruct p as [|c p]; [congruence|]. by repeat split.
Qed.

(** * These statements at work on the table of users *)


Lemma get_all_returns_stored_records_witness :
  _get_all users_router (Some empty_response) (session_of three_users)
    (mk_pagination (Some 1) (Some 1)) (Some filter_a_c) None
  = (Some (set_header empty_response "Content-Range" "1-1/2"),
     inr [user 3 "c" VNull])
  /\ [user 3 "c" VNull] ⊆+ three_users.
Proof.
  assert (H : _get_all users_router (Some empty_response)
                (session_of three_users) (mk_pagination (Some 1) (Some 1))
                (Some filter_a_c) None
              = (Some (set_header empty_response "Content-Range" "1-1/2"),
                 inr [user 3 "c" VNull])) by (vm_compute; reflexivity).
  split; [exact H|].
  exact (get_all_returns_stored_records _ _ _ _ _ _ _ _ H).
Defined.

Lemma get_all_returns_min_witness :
  0 <= 2 /\ 0 < 5 /\
  _get_all users_router (Some empty_response) (session_of three_users)
    (mk_pagination (Some 2) (Some 5)) None None
  = (Some (set_header empty_response "Content-Range" "2-2/3"),
     inr [user 3 "c" VNull])
  /\
  exists total,
    headers (set_header empty_response "Content-Range" "2-2/3")
    !! "Content-Range"
    = Some (content_range 2 (length [user 3 "c" VNull]) total) /\
    0 <= total /\
    Z.of_nat (length [user 3 "c" VNull]) = Z.min 5 (Z.max 0 (total - 2)).
Proof.
  assert (H : _get_all users_router (Some empty_response)
                (session_of three_users) (mk_pagination (Some 2) (Some 5))
                None None
              = (Some (set_header empty_response "Content-Range" "2-2/3"),
                 inr [user 3 "c" VNull])) by (vm_compute; reflexivity).
  split; [lia|]. split; [lia|]. split; [exact H|].
  exact (get_all_returns_min _ _ _ 2 5 _ _ _ _ ltac:(lia) ltac:(lia) H).
Defined.


Lemma filter_not_an_object_witness :
  filter_array <> EmptyString /\
  json_loads filter_array = inr (JArr [JInt 1]) /\
  _get_all users_router (Some empty_response) (session_of three_users)
    (mk_pagination (Some 0) None) (Some filter_array) None
  = (Some empty_response, inl (AttributeError "object has no attribute 'items'")).
Proof.
  assert (Hn : filter_array <> EmptyString) by discriminate.
  assert (Hj : json_loads filter_array = inr (JArr [JInt 1]))
    by (vm_compute; reflexivity).
  split; [exact Hn|]. split; [exact Hj|].
  exact (filter_not_an_object _ _ _ _ _ _ _ Hn Hj ltac:(discriminate)).
Defined.

Lemma filter_value_not_iterable_witness :
  filter_id_5 <> EmptyString /\
  json_loads filter_id_5 = inr (JObj ([] ++ [("id", JInt 5)])) /\
  apply_filter users [] session_query = inr session_query /\
  py_iter (JInt 5) = inl (TypeError "object is not iterable") /\
  _get_all users_router (Some empty_response) (session_of three_users)
    (mk_pagination (Some 0) None) (Some filter_id_5) None
  = (Some empty_response, inl (TypeError "object is not iterable")).
Proof.
  assert (Hn : filter_id_5 <> EmptyString) by (vm_compute; discriminate).
  assert (Hj : json_loads filter_id_5 = inr (JObj ([] ++ [("id", JInt 5)])))
    by (vm_compute; reflexivity).
  split; [exact Hn|]. split; [exact Hj|]. split; [reflexivity|].
  split; [reflexivity|].
  exact (filter_value_not_iterable users_router _ _ _ _ _ [] "id" (JInt 5) []
           session_query _ Hn Hj eq_refl eq_refl).
Defined.

Lemma filter_string_read_by_character_witness :
  filter_name_ac <> EmptyString /\
  filter_a_c <> EmptyString /\
  json_loads filter_name_ac = inr (JObj ([] ++ [("name", JStr "ac")])) /\
  json_loads filter_a_c
  = inr (JObj ([] ++ [("name", JArr (map JStr (str_chars "ac")))])) /\
  _get_all users_router (Some empty_response) (session_of three_users)
    (mk_pagination (Some 0) None) (Some filter_name_ac) None
  = _get_all users_router (Some empty_response) (session_of three_users)
      (mk_pagination (Some 0) None) (Some filter_a_c) None.
Proof.
  assert (Hn1 : filter_name_ac <> EmptyString) by (vm_compute; discriminate).
  assert (Hn2 : filter_a_c <> EmptyString) by (vm_compute; discriminate).
  assert (Hj1 : json_loads filter_name_ac
                = inr (JObj ([] ++ [("name", JStr "ac")])))
    by (vm_compute; reflexivity).
  assert (Hj2 : json_loads filter_a_c
                = inr (JObj ([] ++ [("name", JArr (map JStr (str_chars "ac")))])))
    by (vm_compute; reflexivity).
  split; [exact Hn1|]. split; [exact Hn2|]. split; [exact Hj1|].
  split; [exact Hj2|].
  exact (filter_string_read_by_character users_router _ _ _ _ _ _ [] "name"
           "ac" [] Hn1 Hn2 Hj1 Hj2).
Defined.

Lemma filter_unknown_attribute_witness :
  filter_nick <> EmptyString /\
  json_loads filter_nick = inr (json_of_spec [("nick", [VStr "x"])]) /\
  has_attribute users "nick" = false /\
  exists a',
    has_attribute (db_model users_router) a' = false /\
    _get_all users_router (Some empty_response) (session_of three_users)
      (mk_pagination (Some 0) None) (Some filter_nick) None
    = (Some empty_response,
       inl (AttributeError ("type object has no attribute " +:+ a'))) /\
    is_client_error
      (status_of
         (snd (_get_all users_router (Some empty_response)
                 (session_of three_users) (mk_pagination (Some 0) None)
                 (Some filter_nick) None)))
    = false.
Proof.
  assert (Hn : filter_nick <> EmptyString) by (vm_compute; discriminate).
  assert (Hj : json_loads filter_nick = inr (json_of_spec [("nick", [VStr "x"])]))
    by (vm_compute; reflexivity).
  assert (Hc : has_attribute (db_model users_router) "nick" = false)
    by (vm_compute; reflexivity).
  assert (Hall : forall a0 vs0,
             (a0, vs0) ∈ [("nick", [VStr "x"])] -> vs0 <> [] ->
             has_column (db_model users_router) a0 = true \/
             has_attribute (db_model users_router) a0 = false).
  { intros a0 vs0 Hin _. apply list_elem_of_singleton in Hin.
    inversion Hin; subst. right. exact Hc. }
  split; [exact Hn|]. split; [exact Hj|]. split; [exact Hc|].
  exact (filter_unknown_attribute users_router _ _ _ _ _ _ "nick" [VStr "x"]
           Hn Hj Hall ltac:(left) ltac:(discriminate) Hc).
Defined.

Lemma get_one_by_key_or_not_found_witness :
  fits (pk_kind users) (VInt 2) = true /\
  (forall r, r ∈ pending (session_of three_users) ->
             fits (pk_kind users) (attr r (pk_column users)) = true) /\
  (exists h r',
      _get_one (__init__ users None) (VInt 2) (session_of three_users)
      = inr (h, r')) /\
  (forall h r,
      _get_one (__init__ users None) (VInt 2) (session_of three_users)
      = inr (h, r) ->
      VInt 2 <> VNull /\
      r ∈ pending (session_of three_users) /\
      attr r (pk_column users) = VInt 2).
Proof.
  assert (Hf : fits (pk_kind users) (VInt 2) = true) by reflexivity.
  assert (Ht : forall r, r ∈ pending (session_of three_users) ->
                         fits (pk_kind users) (attr r (pk_column users)) = true).
  { intros r Hr. cbn [pending session_of three_users] in Hr.
    repeat (apply elem_of_cons in Hr as [->|Hr]; [reflexivity|]).
    by apply elem_of_nil in Hr. }
  destruct (get_one_by_key_or_not_found users None (VInt 2)
              (session_of three_users) Hf Ht) as (Hfound & Hsome & _).
  split; [exact Hf|]. split; [exact Ht|]. split; [|exact Hfound].
  apply (Hsome (user 2 "b" (VInt 3))); [discriminate | | reflexivity].
  cbn [pending session_of three_users]. right. left.
Defined.

Lemma absent_key_not_found_witness :
  fits (pk_kind users) (VInt 9) = true /\
  (forall r, r ∈ pending (session_of three_users) ->
             fits (pk_kind users) (attr r (pk_column users)) = true) /\
  (forall r, r ∈ pending (session_of three_users) ->
             attr r (pk_column users) <> VInt 9) /\
  _get_one (__init__ users None) (VInt 9) (session_of three_users)
  = inl NOT_FOUND /\
  _update (__init__ users None) (VInt 9) [("name", VStr "z")]
    (session_of three_users)
  = (session_of three_users, inl NOT_FOUND) /\
  _delete_one (__init__ users None) (VInt 9) (session_of three_users)
  = (session_of three_users, inl NOT_FOUND).
Proof.
  assert (Hf : fits (pk_kind users) (VInt 9) = true) by reflexivity.
  assert (Ht : forall r, r ∈ pending (session_of three_users) ->
                         fits (pk_kind users) (attr r (pk_column users)) = true).
  { intros r Hr. cbn [pending session_of three_users] in Hr.
    repeat (apply elem_of_cons in Hr as [->|Hr]; [reflexivity|]).
    by apply elem_of_nil in Hr. }
  assert (H : forall r, r ∈ pending (session_of three_users) ->
                        attr r (pk_column users) <> VInt 9).
  { intros r Hr. cbn [pending session_of three_users] in Hr.
    repeat (apply elem_of_cons in Hr as [->|Hr]; [vm_compute; discriminate|]).
    by apply elem_of_nil in Hr. }
  split; [exact Hf|]. split; [exact Ht|]. split; [exact H|].
  exact (absent_key_not_found users None (VInt 9) [("name", VStr "z")]
           (session_of three_users) Hf Ht H).
Defined.

Lemma delete_one_removes_the_record_witness :
  violations users three_users = [] /\
  _get_one (__init__ users None) (VInt 2) (session_of three_users)
  = inr (1%nat, user 2 "b" (VInt 3)) /\
  _delete_one (__init__ users None) (VInt 2) (session_of three_users)
  = (session_of (delete 1%nat three_users), inr (user 2 "b" (VInt 3))) /\
  S (length (delete 1%nat three_users)) = length three_users /\
  _get_one (__init__ users None) (VInt 2)
    (session_of (delete 1%nat three_users))
  = inl NOT_FOUND.
Proof.
  assert (Hv : violations users three_users = []) by (vm_compute; reflexivity).
  assert (Hg : _get_one (__init__ users None) (VInt 2) (session_of three_users)
               = inr (1%nat, user 2 "b" (VInt 3))) by (vm_compute; reflexivity).
  split; [exact Hv|]. split; [exact Hg|].
  exact (delete_one_removes_the_record users None _ _ _ _ Hv Hg).
Defined.

Lemma create_then_delete_one_witness :
  _create (__init__ users None) [("name", VStr "d")] (session_of three_users)
  = (session_of (three_users ++ [user 4 "d" VNull]), inr (user 4 "d" VNull)) /\
  _delete_one (__init__ users None) (attr (user 4 "d" VNull) (pk_column users))
    (session_of (three_users ++ [user 4 "d" VNull]))
  = (session_of three_users, inr (user 4 "d" VNull)).
Proof.
  assert (H : _create (__init__ users None) [("name", VStr "d")]
                (session_of three_users)
              = (session_of (three_users ++ [user 4 "d" VNull]),
                 inr (user 4 "d" VNull))) by (vm_compute; reflexivity).
  split; [exact H|].
  exact (create_then_delete_one users None _ _ _ _ H).
Defined.

Lemma update_idempotent_witness :
  _update users_router (VInt 2) [("id", VInt 99); ("name", VStr "zz")]
    (session_of three_users)
  = (session_of [user 1 "a" VNull; user 2 "zz" (VInt 3); user 3 "c" VNull],
     inr (user 2 "zz" (VInt 3))) /\
  (exists h,
      _get_one users_router (VInt 2)
        (session_of [user 1 "a" VNull; user 2 "zz" (VInt 3); user 3 "c" VNull])
      = inr (h, user 2 "zz" (VInt 3))) /\
  _update users_router (VInt 2) [("id", VInt 99); ("name", VStr "zz")]
    (session_of [user 1 "a" VNull; user 2 "zz" (VInt 3); user 3 "c" VNull])
  = (session_of [user 1 "a" VNull; user 2 "zz" (VInt 3); user 3 "c" VNull],
     inr (user 2 "zz" (VInt 3))).
Proof.
  assert (H : _update users_router (VInt 2)
                [("id", VInt 99); ("name", VStr "zz")] (session_of three_users)
              = (session_of [user 1 "a" VNull; user 2 "zz" (VInt 3);
                             user 3 "c" VNull],
                 inr (user 2 "zz" (VInt 3)))) by (vm_compute; reflexivity).
  split; [exact H|].
  exact (update_idempotent _ _ _ _ _ _ H).
Defined.

Lemma prefix_given_or_table_name_witness :
  "/API" <> EmptyString /\
  prefix (__init__ users (Some "/API")) = "/api" /\
  prefix (__init__ users (Some EmptyString)) = "users".
Proof.
  assert (Hn : "/API" <> EmptyString) by discriminate.
  destruct (prefix_given_or_table_name users "/API" Hn) as (H1 & H2 & _).
  split; [exact Hn|]. split; [exact H1 | exact H2].
Defined.

(** * The key of a created record *)

(** The record a create returns has a key, and no record that was in the
    table has the same key. *)
Theorem create_key_is_new :
  forall m p model table db r,
    _create (__init__ m p) model (session_of table) = (db, inr r) ->
    attr r (pk_column m) <> VNull /\
    forall r', r' ∈ table -> attr r' (pk_column m) <> attr r (pk_column m).
Proof.
  intros m p model table db r H. rewrite create_cases in H.
  cbn [db_model __init__] in H.
  destruct (construct m model) as [e|obj]; [inversion H|].
  cbv zeta in H.
  destruct (violations m _) eqn:Ev; inversion H; subst. clear H.
  apply violations_nil_pk in Ev as [Hnn Hu].
  exact (key_constraints _ _ _ Hnn Hu).
Qed.


Lemma create_key_is_new_witness :
  _create (__init__ users None) [("name", VStr "d")] (session_of three_users)
  = (session_of (three_users ++ [user 4 "d" VNull]), inr (user 4 "d" VNull)) /\
  attr (user 4 "d" VNull) (pk_column users) <> VNull /\
  forall r', r' ∈ three_users ->
             attr r' (pk_column users) <> attr (user 4 "d" VNull) (pk_column users).
Proof.
  assert (H : _create (__init__ users None) [("name", VStr "d")]
                (session_of three_users)
              = (session_of (three_users ++ [user 4 "d" VNull]),
                 inr (user 4 "d" VNull))) by (vm_compute; reflexivity).
  split; [exact H|].
  exact (create_key_is_new users None _ _ _ _ H).
Defined.

